(** * gallery/scrape.py: image scraper and static gallery builder

    A shallow embedding of [src/gallery/scrape.py] and of the library calls
    it relies on, followed by the properties of the script.

    Conventions.
    - A Python [str] is a Rocq [string] holding its UTF-8 encoding; [bytes]
      is [list byte].
    - Effects (standard output, the file system, the browser, the HTTP
      client) are threaded through a state-and-exception monad [M].
    - The libraries the script drives (Playwright, httpx, browser_cookie3,
      [re]) are the fields of an environment record [Env]. *)

From Stdlib Require Import Ascii String Decimal DecimalString DecimalNat.
From Stdlib.Strings Require Import Byte.
From stdpp Require Import base gmap sets list strings sorting.

(** ** Python string methods *)

Module PyStr.

(** The double quote, which a literal of this file cannot hold. *)
Definition dq : string := String "034"%char "".
(** The line feed. *)
Definition nl : string := String "010"%char "".

Definition mem (c : ascii) (chars : string) : bool :=
  existsb (Ascii.eqb c) (list_ascii_of_string chars).

(** [s.startswith(p)] *)
Fixpoint startswith (s p : string) {struct p} : bool :=
  match p, s with
  | "", _ => true
  | String a p', String b s' => Ascii.eqb a b && startswith s' p'
  | String _ _, "" => false
  end.

(** [needle in hay] *)
Fixpoint contains (needle hay : string) : bool :=
  startswith hay needle ||
  match hay with
  | "" => false
  | String _ hay' => contains needle hay'
  end.

(** [s.split(sep)] for a separator of one character. *)
Fixpoint split (sep : ascii) (s : string) : list string :=
  match s with
  | "" => [""]
  | String c s' =>
      if Ascii.eqb c sep then "" :: split sep s'
      else match split sep s' with
           | h :: t => String c h :: t
           | [] => [String c ""]
           end
  end.

(** [l[0]] and [l[-1]] on the result of [split], which is never empty. *)
Definition first (l : list string) : string := List.hd "" l.
Definition last (l : list string) : string := List.last l "".

(** Characters for which [str.isspace] holds, on the UTF-8 encoding:
    U+0009..U+000D, U+001C..U+0020 in one byte; U+0085 and U+00A0 in two;
    U+1680, U+2000..U+200A, U+2028, U+2029, U+202F, U+205F and U+3000 in
    three. *)
Definition space1 (c : ascii) : bool :=
  let n := nat_of_ascii c in
  (9 <=? n) && (n <=? 13) || (28 <=? n) && (n <=? 32).

Definition space2 (c1 c2 : ascii) : bool :=
  let n1 := nat_of_ascii c1 in
  let n2 := nat_of_ascii c2 in
  (n1 =? 194) && ((n2 =? 133) || (n2 =? 160)).

Definition space3 (c1 c2 c3 : ascii) : bool :=
  let n1 := nat_of_ascii c1 in
  let n2 := nat_of_ascii c2 in
  let n3 := nat_of_ascii c3 in
  (n1 =? 225) && (n2 =? 154) && (n3 =? 128)
  || (n1 =? 226) && (n2 =? 128)
     && ((128 <=? n3) && (n3 <=? 138) || (n3 =? 168) || (n3 =? 169) || (n3 =? 175))
  || (n1 =? 226) && (n2 =? 129) && (n3 =? 159)
  || (n1 =? 227) && (n2 =? 128) && (n3 =? 128).

(** [s.lstrip()] *)
Fixpoint lstrip (s : string) : string :=
  match s with
  | "" => ""
  | String c1 r1 =>
      if space1 c1 then lstrip r1
      else match r1 with
           | String c2 r2 =>
               if space2 c1 c2 then lstrip r2
               else match r2 with
                    | String c3 r3 =>
                        if space3 c1 c2 c3 then lstrip r3 else s
                    | "" => s
                    end
           | "" => s
           end
  end.

(** [lstrip] on the reversed string: the bytes of a character come last
    byte first. *)
Fixpoint lstrip_rev (s : string) : string :=
  match s with
  | "" => ""
  | String c1 r1 =>
      if space1 c1 then lstrip_rev r1
      else match r1 with
           | String c2 r2 =>
               if space2 c2 c1 then lstrip_rev r2
               else match r2 with
                    | String c3 r3 =>
                        if space3 c3 c2 c1 then lstrip_rev r3 else s
                    | "" => s
                    end
           | "" => s
           end
  end.

(** [s.rstrip()] and [s.strip()] *)
Definition rstrip (s : string) : string :=
  String.rev (lstrip_rev (String.rev s)).
Definition strip (s : string) : string := rstrip (lstrip s).

(** [s.rstrip(chars)] *)
Fixpoint rstrip_chars (chars s : string) : string :=
  match s with
  | "" => ""
  | String c s' =>
      match rstrip_chars chars s' with
      | "" => if mem c chars then "" else String c ""
      | r => String c r
      end
  end.

(** [s.replace(old, new)] for a non-empty [old]: occurrences are replaced
    from the left and do not overlap; [skip] counts the characters of an
    occurrence that are still to be dropped. *)
Fixpoint replace_go (old new s : string) (skip : nat) : string :=
  match s with
  | "" => ""
  | String c s' =>
      match skip with
      | S k => replace_go old new s' k
      | O =>
          if startswith s old
          then new +:+ replace_go old new s' (String.length old - 1)
          else String c (replace_go old new s' 0)
      end
  end.
Definition replace (old new s : string) : string := replace_go old new s 0.

(** [s.lower()], on ASCII letters. The only characters outside ASCII that
    [str.lower] sends to ASCII text are U+0130 and U+212A, and neither
    result can make a suffix of [IMG_EXTS]. *)
Definition lower_char (c : ascii) : ascii :=
  let n := nat_of_ascii c in
  if (65 <=? n) && (n <=? 90) then ascii_of_nat (n + 32) else c.
Fixpoint lower (s : string) : string :=
  match s with
  | "" => ""
  | String c s' => String (lower_char c) (lower s')
  end.

(** [sep.join(l)] *)
Definition join (sep : string) (l : list string) : string :=
  String.concat sep l.

(** [s[:n]]: the first [n] characters. A byte [10xxxxxx] continues the
    character before it. *)
Definition continuation (c : ascii) : bool :=
  let n := nat_of_ascii c in (128 <=? n) && (n <=? 191).
Fixpoint slice_to (n : nat) (s : string) : string :=
  match s with
  | "" => ""
  | String c s' =>
      if continuation c then String c (slice_to n s')
      else match n with
           | O => ""
           | S n' => String c (slice_to n' s')
           end
  end.

(** [s.rfind(".")], as the text from the last dot on together with its
    index; [None] when [s] has no dot. *)
Fixpoint rfind_dot (s : string) : option (nat * string) :=
  match s with
  | "" => None
  | String c s' =>
      match rfind_dot s' with
      | Some (i, t) => Some (S i, t)
      | None => if Ascii.eqb c "."%char then Some (0, s) else None
      end
  end.

(** [str(n)] and [f"{n:04d}"] for a natural number. *)
Definition str (n : nat) : string := NilZero.string_of_uint (Nat.to_uint n).
Fixpoint zeros (k : nat) : string :=
  match k with O => "" | S k' => String "0"%char (zeros k') end.
Definition format_04d (n : nat) : string :=
  let s := str n in zeros (4 - String.length s) +:+ s.

End PyStr.

(** ** urllib.parse.quote *)

Module Urllib.

(** [_ALWAYS_SAFE]: the unreserved characters of RFC 3986. *)
Definition always_safe (c : ascii) : bool :=
  let n := nat_of_ascii c in
  (65 <=? n) && (n <=? 90) || (97 <=? n) && (n <=? 122)
  || (48 <=? n) && (n <=? 57)
  || PyStr.mem c "_.-~".

Definition hex_digit (n : nat) : ascii :=
  match String.get n "0123456789ABCDEF" with
  | Some c => c
  | None => "0"%char
  end.

(** [_Quoter.__missing__]: [chr(b) if b in safe else '%{:02X}'.format(b)] *)
Definition quoter (safe : string) (b : ascii) : string :=
  if always_safe b || PyStr.mem b safe then String b ""
  else let n := nat_of_ascii b in
       String "%"%char (String (hex_digit (n / 16)) (String (hex_digit (n mod 16)) "")).

(** [bs.rstrip(_ALWAYS_SAFE_BYTES + safe)] *)
Fixpoint rstrip_safe (safe bs : string) : string :=
  match bs with
  | "" => ""
  | String c bs' =>
      match rstrip_safe safe bs' with
      | "" => if always_safe c || PyStr.mem c safe then "" else String c ""
      | r => String c r
      end
  end.

(** [quote_from_bytes(bs, safe)] *)
Definition quote_from_bytes (bs safe : string) : string :=
  match bs with
  | "" => ""
  | _ =>
      match rstrip_safe safe bs with
      | "" => bs
      | _ => PyStr.join "" (quoter safe <$> list_ascii_of_string bs)
      end
  end.

(** [quote(string)] with the defaults [safe='/'], UTF-8, strict. The
    string model already is the UTF-8 encoding, so [string.encode] is the
    identity. *)
Definition quote (s : string) : string :=
  match s with
  | "" => s
  | _ => quote_from_bytes s "/"
  end.

End Urllib.

(** ** The script *)

Definition SCROLL_TIMES : nat := 15.
Definition MIN_SIZE : nat := 5000.
Definition IMG_EXTS : list string :=
  [".jpg"; ".jpeg"; ".png"; ".gif"; ".webp"; ".avif"].

Definition make_url (query_or_url : string) : string :=
  if PyStr.startswith query_or_url "http" then query_or_url
  else "https://www.google.com/search?q=" +:+ Urllib.quote query_or_url +:+ "&udm=2".

(** The query used when the command line gives none. *)
Definition default_query : string := "تم تعبئة الكرش".

(** *** Exceptions, responses, cookies, matches *)

(** An exception of class [Exception], by its message. *)
Definition exn : Type := string.

Inductive outcome (A : Type) : Type :=
| Ok (a : A)
| Raise (e : exn).
Arguments Ok {A} a.
Arguments Raise {A} e.

(** What the script reads of an [httpx.Response]: [r.content] and
    [r.headers.get("content-type")]. *)
Record response : Type := Response {
  content : list byte;
  content_type : option string
}.

(** A cookie of the jar [browser_cookie3.firefox] returns; the empty string
    stands for a field that is empty or [None]. *)
Record jar_cookie : Type := JarCookie {
  c_name : string;
  c_value : string;
  c_domain : string;
  c_path : string
}.

(** The dictionary handed to Playwright. *)
Record cookie : Type := Cookie {
  ck_name : string;
  ck_value : string;
  ck_domain : string;
  ck_path : string
}.

(** A match object: [m.group(0)] and [m.group(1)]. *)
Record re_match : Type := Match {
  group0 : string;
  group1 : string
}.

(** *** The file system below [HERE] *)

(** A path is the list of its parts relative to [HERE]. *)
Definition path : Type := list string.

Inductive entry : Type :=
| EFile (data : list byte)
| EDir.

Global Instance byte_eq_dec : EqDecision byte := Byte.byte_eq_dec.

Global Instance entry_eq_dec : EqDecision entry.
Proof. solve_decision. Defined.

Definition HERE : path := [].
Definition IMAGES_DIR : path := HERE ++ ["images"].

(** [p.parent] and [p.name] *)
Definition parent (p : path) : path := removelast p.
Definition name (p : path) : string := List.last p "".

(** [p.suffix] (pathlib up to Python 3.13): the text from the last dot of
    the name, unless that dot is the first or the last character. *)
Definition suffix (p : path) : string :=
  match PyStr.rfind_dot (name p) with
  | Some (i, t) =>
      if (0 <? i) && (i <? String.length (name p) - 1) then t else ""
  | None => ""
  end.

(** The order of [sorted] on paths: the parts compared as lists of strings. *)
Fixpoint parts_compare (p q : path) : comparison :=
  match p, q with
  | [], [] => Eq
  | [], _ :: _ => Lt
  | _ :: _, [] => Gt
  | a :: p', b :: q' =>
      match String.compare a b with
      | Eq => parts_compare p' q'
      | c => c
      end
  end.

Definition path_le (p q : path) : Prop :=
  parts_compare p q ≠ Gt.

Global Instance path_le_dec : RelDecision path_le.
Proof. intros p q. unfold path_le. apply _. Defined.

(** Is [d] a proper ancestor of [p]? *)
Fixpoint below (d p : path) : bool :=
  match d, p with
  | [], _ :: _ => true
  | a :: d', b :: p' => String.eqb a b && below d' p'
  | _, [] => false
  end.

(** [d.rglob("*")]: every entry below [d], files and directories alike. *)
Definition rglob (d : path) (fs : gmap path entry) : list path :=
  filter (λ p, below d p = true) (fst <$> map_to_list fs).

(** *** Browser actions *)

Inductive action : Type :=
| Launch (headless : bool)
| NewContext (user_agent : string)
| AddCookies (cookies : list cookie)
| NewPage
| Goto (url wait_until : string) (timeout : N)
| WaitForTimeout (ms : N)
| KeyboardPress (key : string)
| PageContent
| QuerySelector (selector : string)
| Click (selector : string)
| Close.

(** What the run does to the outside, in order. *)
Inductive event : Type :=
| EvBrowser (a : action)
| EvGet (url : string)
| EvWrite (p : path) (data : list byte).

(** *** The environment *)

Record Env : Type := {
  (** Playwright: the browser as a transition system over the actions *)
  browser : Type;
  browser_step : action → browser → browser;
  page_html : browser → string;
  page_has : string → browser → bool;
  (** httpx: [client.get(url)] *)
  http_get : string → outcome response;
  (** writes the disk refuses (permissions, full disk) *)
  disk_fault : path → option exn;
  (** [import browser_cookie3] and [browser_cookie3.firefox(domain_name=d)] *)
  import_browser_cookie3 : option exn;
  firefox : string → outcome (list jar_cookie);
  (** [re.finditer(pattern, text, flags)], flag [re.IGNORECASE], and
      [re.search(pattern, text)] *)
  re_finditer : string → bool → string → list re_match;
  re_search : string → string → option re_match
}.

(** The state of a run: the files below [HERE], what was printed, the
    browser, and the events so far. *)
Record World (B : Type) : Type := MkWorld {
  fs : gmap path entry;
  stdout : list string;
  page : B;
  trace : list event
}.
Arguments MkWorld {B} fs stdout page trace.
Arguments fs {B} w.
Arguments stdout {B} w.
Arguments page {B} w.
Arguments trace {B} w.

(** *** The monad of the script *)

Definition M (E : Env) (A : Type) : Type :=
  World (browser E) → outcome A * World (browser E).

Definition ret {E A} (a : A) : M E A := λ w, (Ok a, w).

Definition bind {E A B} (m : M E A) (k : A → M E B) : M E B :=
  λ w, match m w with
       | (Ok a, w') => k a w'
       | (Raise e, w') => (Raise e, w')
       end.

Definition raise {E A} (e : exn) : M E A := λ w, (Raise e, w).

(** [try: m  except Exception as e: h e] *)
Definition try_except {E A} (m : M E A) (h : exn → M E A) : M E A :=
  λ w, match m w with
       | (Ok a, w') => (Ok a, w')
       | (Raise e, w') => h e w'
       end.

Declare Scope py_scope.
Delimit Scope py_scope with py.
Notation "x <- m ;; k" := (bind m (λ x, k))
  (at level 100, m at next level, right associativity) : py_scope.
Notation "m ;; k" := (bind m (λ _, k))
  (at level 100, right associativity) : py_scope.
Open Scope py_scope.

(** Changes of the state. *)
Definition log {B} (lines : list string) (w : World B) : World B :=
  MkWorld (fs w) (stdout w ++ lines) (page w) (trace w).
Definition emit {B} (evs : list event) (w : World B) : World B :=
  MkWorld (fs w) (stdout w) (page w) (trace w ++ evs).
Definition store {B} (p : path) (e : entry) (w : World B) : World B :=
  MkWorld (<[p := e]> (fs w)) (stdout w) (page w) (trace w).
Definition turn {B} (f : B → B) (w : World B) : World B :=
  MkWorld (fs w) (stdout w) (f (page w)) (trace w).

Section Script.
Context {E : Env}.

(** [print(line)] *)
Definition print (line : string) : M E unit :=
  λ w, (Ok (), log [line] w).

(** A Playwright call that changes the browser. *)
Definition play (a : action) : M E unit :=
  λ w, (Ok (), emit [EvBrowser a] (turn (browser_step E a) w)).

(** [await page.content()] *)
Definition page_content : M E string :=
  play PageContent ;; λ w, (Ok (page_html E (page w)), w).

(** [await page.query_selector(sel)]: is there such an element? *)
Definition query_selector (sel : string) : M E bool :=
  play (QuerySelector sel) ;; λ w, (Ok (page_has E sel (page w)), w).

(** [await client.get(url)] *)
Definition client_get (url : string) : M E response :=
  λ w, (http_get E url, emit [EvGet url] w).

(** The error of opening [p] for writing, if any: [p] must not be a
    directory, its parent must be one, and the disk must accept the write. *)
Definition write_error (files : gmap path entry) (p : path) : option exn :=
  match files !! p with
  | Some EDir => Some "IsADirectoryError"
  | _ =>
      if bool_decide (parent p = HERE ∨ files !! parent p = Some EDir)
      then disk_fault E p
      else Some "FileNotFoundError"
  end.

(** [p.write_bytes(data)] *)
Definition write_bytes (p : path) (data : list byte) : M E unit :=
  λ w, match write_error (fs w) p with
       | Some e => (Raise e, w)
       | None => (Ok (), emit [EvWrite p data] (store p (EFile data) w))
       end.

(** [p.write_text(text, encoding="utf-8")] *)
Definition write_text (p : path) (text : string) : M E unit :=
  write_bytes p (list_byte_of_string text).

(** [IMAGES_DIR.mkdir(exist_ok=True)], run when the module is loaded. *)
Definition mkdir_images : M E unit :=
  λ w, match fs w !! IMAGES_DIR with
       | Some EDir => (Ok (), w)
       | Some (EFile _) => (Raise "FileExistsError", w)
       | None =>
           match disk_fault E IMAGES_DIR with
           | Some e => (Raise e, w)
           | None => (Ok (), store IMAGES_DIR EDir w)
           end
       end.

(** **** load_firefox_cookies *)

Definition cookie_dict (c : jar_cookie) : cookie :=
  {| ck_name := c_name c;
     ck_value := c_value c;
     ck_domain := if String.eqb (c_domain c) "" then ".google.com" else c_domain c;
     ck_path := if String.eqb (c_path c) "" then "/" else c_path c |}.

Definition no_cookies_line (e : exn) : string := "No Firefox cookies: " +:+ e.

Definition load_firefox_cookies : M E (list cookie) :=
  try_except
    (match import_browser_cookie3 E with
     | Some e => raise e
     | None => ret ()
     end ;;
     cj <- (λ w, (firefox E ".google.com", w)) ;;
     ret (cookie_dict <$> cj))
    (λ e, print (no_cookies_line e) ;; ret []).

End Script.

Section Pipeline.
Context {E : Env}.

(** **** collect_image_urls *)

Definition skip_domains : list string :=
  ["google.com"; "gstatic.com"; "googleapis.com"; "googleusercontent.com"].

(** The three patterns of the source, character for character. *)
Definition pattern_ou : string :=
  PyStr.dq +:+ "ou" +:+ PyStr.dq +:+ "\s*:\s*" +:+ PyStr.dq
  +:+ "(https?://[^" +:+ PyStr.dq +:+ "]+)" +:+ PyStr.dq.
Definition pattern_img : string :=
  "https?://[^\s" +:+ PyStr.dq +:+ "\'<>]+\.(?:jpg|jpeg|png|webp|gif)".
Definition pattern_host : string := "https?://([^/]+)".

(** [urls.add(url)] *)
Definition add (url : string) (urls : gset string) : gset string :=
  {[ url ]} ∪ urls.

(** Pattern 1: the original-url field of the JSON blobs. *)
Definition scan_ou (html : string) (urls : gset string) : gset string :=
  foldl (λ urls m, add (group1 m) urls) urls
        (re_finditer E pattern_ou false html).

(** Pattern 2: image URLs outside the Google domains. *)
Definition keep_img (urls : gset string) (m : re_match) : gset string :=
  let url := PyStr.rstrip_chars "\,;)" (group0 m) in
  match re_search E pattern_host url with
  | Some host =>
      if negb (existsb (λ d, PyStr.contains d (group1 host)) skip_domains)
      then add url urls
      else urls
  | None => urls
  end.

Definition scan_img (html : string) (urls : gset string) : gset string :=
  foldl keep_img urls (re_finditer E pattern_img true html).

Definition more_results : string := "input[value='Show more results']".

Definition scroll_line (i found : nat) : string :=
  "  scroll " +:+ PyStr.str (i + 1) +:+ "/" +:+ PyStr.str SCROLL_TIMES
  +:+ ": " +:+ PyStr.str found +:+ " urls found so far".

(** The body of the [for i in range(SCROLL_TIMES)] loop. *)
Definition scroll (i : nat) (urls : gset string) : M E (gset string) :=
  play (KeyboardPress "End") ;;
  play (WaitForTimeout 2000) ;;
  html <- page_content ;;
  let urls := scan_img html (scan_ou html urls) in
  btn <- query_selector more_results ;;
  (if btn : bool
   then play (Click more_results) ;; play (WaitForTimeout 1500)
   else ret ()) ;;
  print (scroll_line i (size urls)) ;;
  ret urls.

(** [for i in items: s = body i s] *)
Fixpoint for_each {I St : Type} (body : I → St → M E St) (items : list I)
  (s : St) : M E St :=
  match items with
  | [] => ret s
  | i :: rest => s' <- body i s ;; for_each body rest s'
  end.

Definition collect_image_urls : M E (gset string) :=
  for_each scroll (seq 0 SCROLL_TIMES) ∅.

(** **** download *)

(** [sorted(urls)] *)
Definition sorted (urls : gset string) : list string :=
  merge_sort String.le (elements urls).

Definition known_exts : list string := ["jpg"; "png"; "gif"; "webp"; "avif"].

(** [r.headers.get("content-type", "image/jpeg")] *)
Definition header_content_type (r : response) : string :=
  default "image/jpeg" (content_type r).

(** [ct.split("/")[-1].split(";")[0].strip().replace("jpeg", "jpg")] *)
Definition subtype (ct : string) : string :=
  PyStr.replace "jpeg" "jpg"
    (PyStr.strip
       (PyStr.first (PyStr.split ";" (PyStr.last (PyStr.split "/" ct))))).

Definition extension (ct : string) : string :=
  let ext := subtype ct in
  if bool_decide (ext ∈ known_exts) then ext else "jpg".

Definition image_name (saved : nat) (ext : string) : string :=
  "img_" +:+ PyStr.format_04d saved +:+ "." +:+ ext.

Definition saved_line (saved : nat) (dest : path) (r : response) : string :=
  "  [" +:+ PyStr.str saved +:+ "] saved " +:+ name dest +:+ " ("
  +:+ PyStr.str (length (content r) / 1024) +:+ "KB)".

Definition skip_line (url : string) (e : exn) : string :=
  "  [skip] " +:+ PyStr.slice_to 70 url +:+ ": " +:+ e.

(** The [try] block of the loop over the URLs; the result is the new value
    of [saved]. A [continue] leaves [saved] as it was. *)
Definition attempt (url : string) (saved : nat) : M E nat :=
  r <- client_get url ;;
  if length (content r) <? MIN_SIZE then ret saved
  else
    let ct := header_content_type r in
    if negb (PyStr.contains "image" ct) then ret saved
    else
      let ext := extension ct in
      let dest := IMAGES_DIR ++ [image_name saved ext] in
      write_bytes dest (content r) ;;
      let saved := saved + 1 in
      print (saved_line saved dest r) ;;
      ret saved.

(** The body of the loop: the [try] block and its handler. Nothing after
    [saved += 1] raises, so the handler always sees the old value. *)
Definition fetch (url : string) (saved : nat) : M E nat :=
  try_except (attempt url saved)
             (λ e, print (skip_line url e) ;; ret saved).

Definition download (urls : gset string) : M E nat :=
  for_each fetch (sorted urls) 0.

(** **** build_html *)

Definition is_image (p : path) : bool :=
  bool_decide (PyStr.lower (suffix p) ∈ IMG_EXTS).

Definition list_images (files : gmap path entry) : list path :=
  merge_sort path_le (filter (λ p, is_image p = true) (rglob IMAGES_DIR files)).

Definition img_tag (p : path) : string :=
  "    <img src=" +:+ PyStr.dq +:+ "images/" +:+ name p +:+ PyStr.dq
  +:+ " loading=" +:+ PyStr.dq +:+ "lazy" +:+ PyStr.dq +:+ ">".

Definition html_head : string :=
  PyStr.join PyStr.nl
    [ "<!DOCTYPE html>";
      "<html lang=" +:+ PyStr.dq +:+ "ar" +:+ PyStr.dq +:+ " dir=" +:+ PyStr.dq
        +:+ "rtl" +:+ PyStr.dq +:+ ">";
      "<head>";
      "  <meta charset=" +:+ PyStr.dq +:+ "UTF-8" +:+ PyStr.dq +:+ ">";
      "  <meta name=" +:+ PyStr.dq +:+ "viewport" +:+ PyStr.dq +:+ " content="
        +:+ PyStr.dq +:+ "width=device-width, initial-scale=1.0" +:+ PyStr.dq +:+ ">";
      "  <title>Gallery</title>";
      "  <style>";
      "    body { margin: 0; background: #111; }";
      "    .grid {";
      "      display: grid;";
      "      grid-template-columns: repeat(auto-fill, minmax(240px, 1fr));";
      "      gap: 4px;";
      "      padding: 4px;";
      "    }";
      "    img {";
      "      width: 100%;";
      "      aspect-ratio: 1;";
      "      object-fit: cover;";
      "      display: block;";
      "    }";
      "  </style>";
      "</head>";
      "<body>";
      "  <div class=" +:+ PyStr.dq +:+ "grid" +:+ PyStr.dq +:+ ">";
      "" ].

Definition html_foot : string :=
  PyStr.join PyStr.nl [ ""; "  </div>"; "</body>"; "</html>"; "" ].

Definition gallery_html (images : list path) : string :=
  html_head +:+ PyStr.join PyStr.nl (img_tag <$> images) +:+ html_foot.

Definition index_html : path := HERE ++ ["index.html"].

Definition build_html : M E unit :=
  images <- (λ w, (Ok (list_images (fs w)), w)) ;;
  match images with
  | [] => print "No images to build gallery from."
  | _ :: _ =>
      write_text index_html (gallery_html images) ;;
      print ("Built index.html with " +:+ PyStr.str (length images) +:+ " images")
  end.

(** **** main *)

Definition user_agent : string :=
  "Mozilla/5.0 (Macintosh; Intel Mac OS X 10.15; rv:137.0) "
  +:+ "Gecko/20100101 Firefox/137.0".

Definition main (query_or_url : string) : M E unit :=
  let url := make_url query_or_url in
  print ("Scraping: " +:+ url) ;;
  cookies <- load_firefox_cookies ;;
  print ("Loaded " +:+ PyStr.str (length cookies) +:+ " Firefox cookies") ;;
  play (Launch false) ;;
  play (NewContext user_agent) ;;
  match cookies with
  | [] => ret ()
  | _ :: _ => play (AddCookies cookies)
  end ;;
  play NewPage ;;
  play (Goto url "networkidle" 30000) ;;
  play (WaitForTimeout 3000) ;;
  urls <- collect_image_urls ;;
  play Close ;;
  print (PyStr.nl +:+ "Found " +:+ PyStr.str (size urls) +:+ " candidate image URLs") ;;
  saved <- download urls ;;
  print ("Downloaded " +:+ PyStr.str saved +:+ " images to images/") ;;
  build_html.

(** The module run as a script with [sys.argv = argv]. *)
Definition script (argv : list string) : M E unit :=
  mkdir_images ;;
  let query := match argv with
               | _ :: q :: _ => q
               | _ => default_query
               end in
  main query.

End Pipeline.

(** ** Notions the properties are stated with *)

(** Percent-encoding as the specification words it: a byte that is an
    unreserved character of RFC 3986 or a slash stands for itself, any other
    byte becomes a percent sign and its two upper-case hexadecimal digits. *)
Definition unreserved (c : ascii) : bool :=
  bool_decide (c ∈ list_ascii_of_string
    "ABCDEFGHIJKLMNOPQRSTUVWXYZabcdefghijklmnopqrstuvwxyz0123456789-._~").

Definition hex_upper (n : nat) : string :=
  nth n ["0"; "1"; "2"; "3"; "4"; "5"; "6"; "7"; "8"; "9";
         "A"; "B"; "C"; "D"; "E"; "F"] "".

Fixpoint percent_encoding (s : string) : string :=
  match s with
  | "" => ""
  | String c s' =>
      (if unreserved c || Ascii.eqb c "/"%char then String c ""
       else "%" +:+ hex_upper (nat_of_ascii c / 16) +:+ hex_upper (nat_of_ascii c mod 16))
      +:+ percent_encoding s'
  end.

(** The value of a string of decimal digits. *)
Definition decimal_value (s : string) : option nat :=
  Nat.of_uint <$> NilZero.uint_of_string s.

(** A string of decimal digits. *)
Definition is_digit (c : ascii) : bool :=
  bool_decide (c ∈ list_ascii_of_string "0123456789").

Fixpoint all_digits (s : string) : bool :=
  match s with
  | "" => true
  | String c s' => is_digit c && all_digits s'
  end.


Definition writes (tr : list event) : list (path * list byte) :=
  omap (λ ev, match ev with EvWrite p data => Some (p, data) | _ => None end) tr.

(** What one pass of the collector loop does to the browser; [clicked]
    tells whether the page offered the control for more results. *)
Definition scroll_trace (clicked : bool) : list event :=
  [ EvBrowser (KeyboardPress "End"); EvBrowser (WaitForTimeout 2000);
    EvBrowser PageContent; EvBrowser (QuerySelector more_results) ]
  ++ (if clicked
      then [ EvBrowser (Click more_results); EvBrowser (WaitForTimeout 1500) ]
      else []).


(** The candidate set after the first [n] passes of the collector loop. *)
Definition urls_after {E : Env} (n : nat) (w : World (browser E)) : gset string :=
  match for_each (E:=E) scroll (seq 0 n) ∅ w with
  | (Ok urls, _) => urls
  | (Raise _, _) => ∅
  end.

(** The two tests a response passes before it is written. *)
Definition large_enough (r : response) : bool :=
  MIN_SIZE <=? length (content r).
Definition names_image (r : response) : bool :=
  PyStr.contains "image" (header_content_type r).

(** The files of a pass that saved the responses [rs], in this order, after
    [k0] earlier ones. *)
Definition numbered (k0 : nat) (rs : list response) : list (path * list byte) :=
  imap (λ k r, (IMAGES_DIR ++ [image_name (k0 + k) (extension (header_content_type r))],
                content r)) rs.

(** The specification's reading of the content-type filter: the response is
    of an image type, and that type is one of the listed ones. *)
Definition allowlisted_image_type (r : response) : bool :=
  PyStr.startswith (header_content_type r) "image/"
  && bool_decide (subtype (header_content_type r) ∈ known_exts).

(** The specification's reading of the downloader: whenever handling a URL
    changes the files, the response was large enough and of an allowlisted
    image type. *)
Definition writes_only_allowlisted {E : Env} (url : string) (saved : nat)
    (w : World (browser E)) : Prop :=
  ∀ n w', fetch (E:=E) url saved w = (Ok n, w') → fs w' ≠ fs w →
    ∃ r, http_get E url = Ok r ∧ large_enough r = true
         ∧ allowlisted_image_type r = true.






(** The specification's reading of the empty gallery: with no regular file
    of a recognised extension below the images directory, [build_html]
    leaves every file as it is. *)
Definition no_image_file (files : gmap path entry) : Prop :=
  ∀ p data, files !! p = Some (EFile data) → below IMAGES_DIR p = true →
            is_image p = false.


(** Two states that differ by one line of the output, [line], printed after
    the lines [pre]. *)
Definition differ_by_line {B : Type} (pre : list string) (line : string)
    (w1 w2 : World B) : Prop :=
  fs w1 = fs w2 ∧ page w1 = page w2 ∧ trace w1 = trace w2
  ∧ ∃ post, stdout w1 = pre ++ line :: post ∧ stdout w2 = pre ++ post.

(** A computation that appends to the output and never reads it: from two
    such states it does the same and ends in two such states. *)
Definition oblivious {E : Env} {A : Type} (m : M E A) : Prop :=
  ∀ pre line w1 w2, differ_by_line pre line w1 w2 →
    (m w1).1 = (m w2).1 ∧ differ_by_line pre line (m w1).2 (m w2).2.

(** ** Sample environments *)

Definition body (n : nat) : list byte := repeat x00 n.

(** A site answering five URLs: a large image without a content type, a
    timeout, a large SVG image, a large text file whose content type
    mentions an image, and an icon. *)
Definition sample_get (url : string) : outcome response :=
  if String.eqb url "https://a.example/cat" then Ok (Response (body 5000) None)
  else if String.eqb url "https://b.example/dog.png" then Raise "ConnectTimeout"
  else if String.eqb url "https://c.example/logo" then
    Ok (Response (body 5000) (Some "image/svg+xml"))
  else if String.eqb url "https://d.example/notes" then
    Ok (Response (body 5000) (Some "text/plain; name=image.txt"))
  else if String.eqb url "https://e.example/icon.png" then
    Ok (Response (body 10) (Some "image/png"))
  else Raise "ConnectError".

Definition sample_urls : list string :=
  [ "https://a.example/cat"; "https://b.example/dog.png";
    "https://c.example/logo"; "https://d.example/notes";
    "https://e.example/icon.png" ].

(** A browser that counts the presses of End and offers more results on
    every other page; the page is found to hold [found] as original URLs.
    No Firefox profile can be read. *)
Definition sample_env (found : list string) : Env :=
  {| browser := nat;
     browser_step := λ a n, match a with KeyboardPress _ => S n | _ => n end;
     page_html := λ n, PyStr.str n;
     page_has := λ _ n, Nat.even n;
     http_get := sample_get;
     disk_fault := λ _, None;
     import_browser_cookie3 := Some "No module named 'browser_cookie3'";
     firefox := λ _, Ok [];
     re_finditer := λ _ ignorecase _,
       if ignorecase then [] else Match "" <$> found;
     re_search := λ _ _, None |}.

(** An images directory left by an earlier run. *)
Definition stale_world : World nat :=
  MkWorld {[ IMAGES_DIR := EDir;
             IMAGES_DIR ++ ["old.png"] := EFile (body 1) ]} [] 0 [].

(** An empty images directory. *)
Definition fresh_world : World nat :=
  MkWorld {[ IMAGES_DIR := EDir ]} [] 0 [].

(** An images directory that holds one empty folder. *)
Definition folder_world : World nat :=
  MkWorld {[ IMAGES_DIR := EDir;
             IMAGES_DIR ++ ["thumbs.png"] := EDir ]} [] 0 [].

(** ** Further notions *)

(** Every character of [s] passes the test [ok]. *)
Fixpoint chars_all (ok : ascii → bool) (s : string) : bool :=
  match s with
  | "" => true
  | String c s' => ok c && chars_all ok s'
  end.

(** The characters [quote] can produce, and those of a search URL. *)
Definition quoted_char (c : ascii) : bool :=
  Urllib.always_safe c || PyStr.mem c "/%".
Definition search_url_char (c : ascii) : bool :=
  Urllib.always_safe c || PyStr.mem c "/%:?=&".

(** The number of characters of a string: the bytes that do not continue a
    character. *)
Fixpoint char_count (s : string) : nat :=
  match s with
  | "" => 0
  | String c s' => (if PyStr.continuation c then 0 else 1) + char_count s'
  end.


(** The browser session of a run on [url] with the cookies [cookies]: the
    start, then one block per pass of the collector, then the close. *)
Definition session (url : string) (cookies : list cookie)
    (passes : list (bool * nat)) : list event :=
  (EvBrowser <$>
     [Launch false; NewContext user_agent]
     ++ match cookies with
        | [] => []
        | _ :: _ => [AddCookies cookies]
        end
     ++ [NewPage; Goto url "networkidle" 30000; WaitForTimeout 3000])
  ++ concat ((λ p, scroll_trace p.1) <$> passes)
  ++ [EvBrowser Close].

(** A URL kept by the filter of pattern 2: its host is found and names none
    of the skipped domains. *)
Definition outside_skipped {E : Env} (url : string) : Prop :=
  ∃ host, re_search E pattern_host url = Some host
          ∧ Forall (λ d, PyStr.contains d (group1 host) = false) skip_domains.

(** An environment whose Firefox profile holds the cookies [jar]. *)
Definition profile_env (jar : list jar_cookie) : Env :=
  {| browser := nat;
     browser_step := λ a n, match a with KeyboardPress _ => S n | _ => n end;
     page_html := λ n, PyStr.str n;
     page_has := λ _ n, Nat.even n;
     http_get := sample_get;
     disk_fault := λ _, None;
     import_browser_cookie3 := None;
     firefox := λ _, Ok jar;
     re_finditer := λ _ _ _, [];
     re_search := λ _ _, None |}.

Definition sample_jar : list jar_cookie :=
  [ JarCookie "SID" "abc" ".google.com" "/";
    JarCookie "NID" "xyz" "" "" ].

(** A regular file where the images directory should be. *)
Definition blocked_world : World nat :=
  MkWorld {[ IMAGES_DIR := EFile (body 1) ]} [] 0 [].

(** ** Proof tactics *)


(** ** Properties of the string functions *)

#[local] Arguments String.append !_ _ / : simpl nomatch.

Lemma append_nil_r (s : string) : s +:+ "" = s.
Proof. induction s as [|c s IH]; simpl; [done | by rewrite IH]. Qed.

Lemma append_assoc (s t u : string) : (s +:+ t) +:+ u = s +:+ (t +:+ u).
Proof. induction s as [|c s IH]; simpl; [done | by rewrite IH]. Qed.


Lemma concat_nil_cons (x : string) (l : list string) :
  String.concat "" (x :: l) = x +:+ String.concat "" l.
Proof. destruct l; cbn; [by rewrite append_nil_r | done]. Qed.

Lemma quoter_char (c : ascii) :
  Urllib.quoter "/" c =
  if unreserved c || Ascii.eqb c "/"%char then String c ""
  else "%" +:+ hex_upper (nat_of_ascii c / 16) +:+ hex_upper (nat_of_ascii c mod 16).
Proof. by destruct c as [[] [] [] [] [] [] [] []]. Qed.

Lemma quoter_percent_encoding (c : ascii) (s : string) :
  Urllib.quoter "/" c +:+ percent_encoding s = percent_encoding (String c s).
Proof. by rewrite quoter_char. Qed.

Lemma join_quoter (s : string) :
  PyStr.join "" (Urllib.quoter "/" <$> list_ascii_of_string s) = percent_encoding s.
Proof.
  unfold PyStr.join. induction s as [|c s IH]; [done|].
  cbn [list_ascii_of_string fmap list_fmap].
  rewrite concat_nil_cons. fold (fmap (M:=list) (Urllib.quoter "/")).
  rewrite IH. apply quoter_percent_encoding.
Qed.

(** The fast path of [quote_from_bytes]: a string of safe bytes is its own
    encoding. *)
Lemma rstrip_safe_nil (s : string) :
  Urllib.rstrip_safe "/" s = "" → percent_encoding s = s.
Proof.
  induction s as [|c s IH]; [done|]. simpl.
  destruct (Urllib.rstrip_safe "/" s) eqn:Hs; [|done].
  rewrite <- quoter_char. unfold Urllib.quoter.
  destruct (Urllib.always_safe c || PyStr.mem c "/"); [|done].
  intros _. simpl. by rewrite IH.
Qed.

Lemma quote_percent_encoding (s : string) :
  Urllib.quote s = percent_encoding s.
Proof.
  destruct s as [|c s]; [done|].
  unfold Urllib.quote, Urllib.quote_from_bytes.
  destruct (Urllib.rstrip_safe "/" (String c s)) eqn:Hs.
  - symmetry. by apply rstrip_safe_nil.
  - apply join_quoter.
Qed.



(** ** Decimal numerals and file names *)

Lemma decimal_value_str (n : nat) : decimal_value (PyStr.str n) = Some n.
Proof.
  unfold decimal_value, PyStr.str.
  destruct (Nat.to_uint n) eqn:Hn;
    try (rewrite NilZero.usu by done; simpl; f_equal;
         rewrite <- Hn; apply Unsigned.of_to).
  pose proof (Unsigned.of_to n) as H. rewrite Hn in H. by subst n.
Qed.

Lemma str_nonempty (n : nat) : PyStr.str n ≠ "".
Proof.
  intros H. pose proof (decimal_value_str n) as Hv. by rewrite H in Hv.
Qed.

Lemma decimal_value_zero (s : string) :
  s ≠ "" → decimal_value (String "0" s) = decimal_value s.
Proof.
  intros Hs. unfold decimal_value. destruct s as [|c s]; [done|].
  change (NilZero.uint_of_string (String "0" (String c s)))
    with (uint_of_char "0" (NilEmpty.uint_of_string (String c s))).
  change (NilZero.uint_of_string (String c s))
    with (NilEmpty.uint_of_string (String c s)).
  by destruct (NilEmpty.uint_of_string (String c s)).
Qed.

Lemma decimal_value_zeros (k : nat) (s : string) :
  s ≠ "" → decimal_value (PyStr.zeros k +:+ s) = decimal_value s.
Proof.
  intros Hs. induction k as [|k IH]; [done|].
  simpl. rewrite decimal_value_zero; [done|].
  destruct k; simpl; [done|discriminate].
Qed.

Lemma decimal_value_format_04d (n : nat) :
  decimal_value (PyStr.format_04d n) = Some n.
Proof.
  unfold PyStr.format_04d.
  rewrite decimal_value_zeros by apply str_nonempty. apply decimal_value_str.
Qed.

Lemma all_digits_uint (d : uint) : all_digits (NilEmpty.string_of_uint d) = true.
Proof. induction d; simpl; by rewrite ?IHd. Qed.

Lemma all_digits_app (s t : string) :
  all_digits (s +:+ t) = all_digits s && all_digits t.
Proof.
  induction s as [|c s IH]; [done|]. simpl. by rewrite IH, andb_assoc.
Qed.

Lemma all_digits_zeros (k : nat) : all_digits (PyStr.zeros k) = true.
Proof. induction k; simpl; by rewrite ?IHk. Qed.

Lemma all_digits_format_04d (n : nat) : all_digits (PyStr.format_04d n) = true.
Proof.
  unfold PyStr.format_04d, PyStr.str.
  rewrite all_digits_app, all_digits_zeros. simpl.
  unfold NilZero.string_of_uint.
  destruct (Nat.to_uint n) as [|d|d|d|d|d|d|d|d|d|d]; [done|..].
  - apply (all_digits_uint (D0 d)).
  - apply (all_digits_uint (D1 d)).
  - apply (all_digits_uint (D2 d)).
  - apply (all_digits_uint (D3 d)).
  - apply (all_digits_uint (D4 d)).
  - apply (all_digits_uint (D5 d)).
  - apply (all_digits_uint (D6 d)).
  - apply (all_digits_uint (D7 d)).
  - apply (all_digits_uint (D8 d)).
  - apply (all_digits_uint (D9 d)).
Qed.

Lemma digits_dot_inj (s s' t t' : string) :
  all_digits s = true → all_digits s' = true →
  s +:+ String "." t = s' +:+ String "." t' → s = s' ∧ t = t'.
Proof.
  revert s'. induction s as [|c s IH]; intros [|c' s'] Hs Hs' Heq; simpl in *.
  - by injection Heq.
  - injection Heq as <- _. by apply andb_true_iff in Hs' as [? _].
  - injection Heq as -> _. by apply andb_true_iff in Hs as [? _].
  - injection Heq as -> Heq.
    apply andb_true_iff in Hs as [_ Hs]. apply andb_true_iff in Hs' as [_ Hs'].
    destruct (IH s' Hs Hs' Heq) as [-> ->]. done.
Qed.

Lemma image_name_inj (k k' : nat) (ext ext' : string) :
  image_name k ext = image_name k' ext' → k = k' ∧ ext = ext'.
Proof.
  unfold image_name. intros H. simpl in H. injection H as H.
  apply digits_dot_inj in H as [Hk ->]; try apply all_digits_format_04d.
  split; [|done].
  pose proof (decimal_value_format_04d k) as Hv. rewrite Hk in Hv.
  rewrite decimal_value_format_04d in Hv. by injection Hv.
Qed.

(** ** Running the loops *)

(** Invariant rule for a loop whose body does not raise on the items it is
    given: [P seen s w] relates the items handled so far to the state. *)
Lemma for_each_invariant {E : Env} {I St : Type} (body : I → St → M E St)
    (Q : I → Prop) (P : list I → St → World (browser E) → Prop) :
  (∀ seen i s w, Q i → P seen s w →
     ∃ s' w', body i s w = (Ok s', w') ∧ P (seen ++ [i]) s' w') →
  ∀ items seen s w, Forall Q items → P seen s w →
    ∃ s' w', for_each body items s w = (Ok s', w') ∧ P (seen ++ items) s' w'.
Proof.
  intros Hstep items. induction items as [|i items IH]; intros seen s w HQ HP.
  - exists s, w. by rewrite app_nil_r.
  - apply Forall_cons in HQ as [Hi Hrest].
    destruct (Hstep seen i s w Hi HP) as (s1 & w1 & Hrun & HP1).
    destruct (IH (seen ++ [i]) s1 w1 Hrest HP1) as (s2 & w2 & Hrun2 & HP2).
    exists s2, w2. split.
    + simpl. unfold bind. by rewrite Hrun.
    + by rewrite <- app_assoc in HP2.
Qed.

Lemma for_each_snoc {E : Env} {I St : Type} (body : I → St → M E St)
    (items : list I) (i : I) (s : St) (w : World (browser E)) :
  for_each body (items ++ [i]) s w =
  match for_each body items s w with
  | (Ok s', w') => body i s' w'
  | (Raise e, w') => (Raise e, w')
  end.
Proof.
  revert s w. induction items as [|j items IH]; intros s w; simpl; unfold bind.
  - by destruct (body i s w) as [[?|?] ?].
  - destruct (body j s w) as [[s'|e] w']; [apply IH | done].
Qed.

(** *** One pass of the collector *)

Lemma scan_ou_grows {E : Env} (html : string) (urls : gset string) :
  urls ⊆ scan_ou (E:=E) html urls.
Proof.
  unfold scan_ou. generalize (re_finditer E pattern_ou false html).
  intros ms. revert urls. induction ms as [|m ms IH]; intros urls; simpl; [done|].
  etrans; [|apply IH]. unfold add. set_solver.
Qed.

Lemma keep_img_grows {E : Env} (urls : gset string) (m : re_match) :
  urls ⊆ keep_img (E:=E) urls m.
Proof.
  unfold keep_img, add.
  destruct (re_search E pattern_host _); [|done].
  destruct (negb _); set_solver.
Qed.

Lemma scan_img_grows {E : Env} (html : string) (urls : gset string) :
  urls ⊆ scan_img (E:=E) html urls.
Proof.
  unfold scan_img. generalize (re_finditer E pattern_img true html).
  intros ms. revert urls. induction ms as [|m ms IH]; intros urls; simpl; [done|].
  etrans; [apply (keep_img_grows (E:=E)) | apply IH].
Qed.

Lemma scroll_run {E : Env} (i : nat) (urls : gset string) (w : World (browser E)) :
  ∃ urls' w' clicked,
    scroll i urls w = (Ok urls', w')
    ∧ urls ⊆ urls'
    ∧ fs w' = fs w
    ∧ stdout w' = stdout w ++ [scroll_line i (size urls')]
    ∧ trace w' = trace w ++ scroll_trace clicked.
Proof.
  unfold scroll, bind, page_content, query_selector, bind, play, print, ret.
  simpl.
  match goal with |- context [page_has E more_results ?p] =>
    destruct (page_has E more_results p) eqn:Hbtn end.
  - eexists _, _, true. split; [reflexivity|]. simpl.
    split; [etrans; [apply (scan_ou_grows (E:=E)) | apply (scan_img_grows (E:=E))]|].
    repeat split. by rewrite <- !app_assoc.
  - eexists _, _, false. split; [reflexivity|]. simpl.
    split; [etrans; [apply (scan_ou_grows (E:=E)) | apply (scan_img_grows (E:=E))]|].
    repeat split. by rewrite <- !app_assoc.
Qed.

Lemma collector_passes {E : Env} (n : nat) (urls : gset string)
    (w : World (browser E)) :
  ∃ urls' w' (passes : list (bool * nat)),
    for_each scroll (seq 0 n) urls w = (Ok urls', w')
    ∧ length passes = n
    ∧ urls ⊆ urls'
    ∧ fs w' = fs w
    ∧ stdout w' = stdout w ++ zip_with (λ i p, scroll_line i p.2) (seq 0 n) passes
    ∧ trace w' = trace w ++ concat ((λ p, scroll_trace p.1) <$> passes).
Proof.
  pose (P := λ (seen : list nat) (urls' : gset string) (w' : World (browser E)),
    ∃ passes : list (bool * nat),
      length passes = length seen
      ∧ urls ⊆ urls'
      ∧ fs w' = fs w
      ∧ stdout w' = stdout w ++ zip_with (λ i p, scroll_line i p.2) seen passes
      ∧ trace w' = trace w ++ concat ((λ p, scroll_trace p.1) <$> passes)).
  destruct (for_each_invariant scroll (λ _, True) P) with
    (items := seq 0 n) (seen := @nil nat) (s := urls) (w := w)
    as (urls' & w' & Hrun & passes & Hlen & Hsub & Hfs & Hout & Htr).
  - intros seen i s w1 _ (passes & Hlen & Hsub & Hfs & Hout & Htr).
    destruct (scroll_run i s w1) as (s' & w2 & clicked & Hrun & Hs & Hfs2 & Hout2 & Htr2).
    exists s', w2. split; [done|]. exists (passes ++ [(clicked, size s')]).
    split; [rewrite !length_app; simpl; lia|].
    split; [set_solver|]. split; [congruence|]. split.
    + rewrite Hout2, Hout, <- app_assoc. f_equal.
      rewrite zip_with_app by done. done.
    + rewrite Htr2, Htr, <- app_assoc. f_equal.
      rewrite fmap_app, concat_app. simpl. by rewrite app_nil_r.
  - apply Forall_forall. done.
  - exists []. simpl. by rewrite !app_nil_r.
  - exists urls', w', passes. simpl in Hlen, Hout. rewrite length_seq in Hlen. done.
Qed.




Lemma urls_after_run {E : Env} (n : nat) (w : World (browser E)) :
  ∃ w', for_each scroll (seq 0 n) ∅ w = (Ok (urls_after n w), w').
Proof.
  unfold urls_after.
  destruct (collector_passes n ∅ w) as (urls & w' & ? & -> & _).
  by exists w'.
Qed.

Lemma urls_after_succ {E : Env} (n : nat) (w : World (browser E)) :
  urls_after n w ⊆ urls_after (S n) w.
Proof.
  destruct (urls_after_run n w) as [w1 Hn].
  unfold urls_after at 2. rewrite seq_S, for_each_snoc, Hn. simpl.
  destruct (scroll_run n (urls_after n w) w1) as (urls' & w2 & ? & -> & Hsub & _).
  done.
Qed.

Lemma add_present (url : string) (urls : gset string) :
  url ∈ urls → add url urls = urls.
Proof.
  intros H. unfold add. apply subseteq_union_1_L. by apply singleton_subseteq_l.
Qed.

Lemma scan_ou_present {E : Env} (html : string) (urls : gset string) :
  Forall (λ m, group1 m ∈ urls) (re_finditer E pattern_ou false html) →
  scan_ou (E:=E) html urls = urls.
Proof.
  unfold scan_ou. generalize (re_finditer E pattern_ou false html).
  intros ms. induction ms as [|m ms IH]; intros H; [done|].
  apply Forall_cons in H as [Hm Hms]. simpl. rewrite add_present by done.
  by apply IH.
Qed.

Lemma keep_img_present {E : Env} (urls : gset string) (m : re_match) :
  PyStr.rstrip_chars "\,;)" (group0 m) ∈ urls → keep_img (E:=E) urls m = urls.
Proof.
  intros H. unfold keep_img.
  destruct (re_search E pattern_host _); [|done].
  destruct (negb _); [by apply add_present | done].
Qed.

Lemma scan_img_present {E : Env} (html : string) (urls : gset string) :
  Forall (λ m, PyStr.rstrip_chars "\,;)" (group0 m) ∈ urls)
         (re_finditer E pattern_img true html) →
  scan_img (E:=E) html urls = urls.
Proof.
  unfold scan_img. generalize (re_finditer E pattern_img true html).
  intros ms. induction ms as [|m ms IH]; intros H; [done|].
  apply Forall_cons in H as [Hm Hms]. simpl. rewrite keep_img_present by done.
  by apply IH.
Qed.

Lemma sorted_perm (urls : gset string) : sorted urls ≡ₚ elements urls.
Proof. apply merge_sort_Permutation. Qed.

Lemma sorted_NoDup (urls : gset string) : NoDup (sorted urls).
Proof. rewrite sorted_perm. apply NoDup_elements. Qed.

Lemma elem_of_sorted (urls : gset string) (url : string) :
  url ∈ sorted urls ↔ url ∈ urls.
Proof. rewrite sorted_perm. apply elem_of_elements. Qed.

(** C6. The candidate URLs form a set that only grows: what is in it after
    pass [i] is in it after pass [i + 1], and the loop returns the set of the
    last pass. Adding a URL that is already present changes nothing, so a
    scan that finds only known URLs leaves the set as it was; and the list
    the downloader walks holds every URL once. *)
Theorem candidate_set_grows (E : Env) (w : World (browser E)) (i : nat) :
  urls_after i w ⊆ urls_after (S i) w
  ∧ (collect_image_urls w).1 = Ok (urls_after SCROLL_TIMES w)
  ∧ (∀ url urls, url ∈ urls → add url urls = urls)
  ∧ (∀ html urls,
       Forall (λ m, group1 m ∈ urls) (re_finditer E pattern_ou false html) →
       Forall (λ m, PyStr.rstrip_chars "\,;)" (group0 m) ∈ urls)
              (re_finditer E pattern_img true html) →
       scan_img (E:=E) html (scan_ou (E:=E) html urls) = urls)
  ∧ (∀ urls, NoDup (sorted urls) ∧ ∀ url, url ∈ sorted urls ↔ url ∈ urls).
Proof.
  split; [apply urls_after_succ|]. split.
  { destruct (urls_after_run SCROLL_TIMES w) as [w' H].
    unfold collect_image_urls. by rewrite H. }
  split; [apply add_present|]. split.
  { intros html urls H1 H2. rewrite scan_ou_present by done.
    by apply scan_img_present. }
  intros urls. split; [apply sorted_NoDup | apply elem_of_sorted].
Qed.

(** *** One URL of the downloader *)

(** What handling one URL does, case by case. *)
Lemma fetch_run {E : Env} (url : string) (saved : nat) (w : World (browser E)) :
  fetch url saved w =
  let w1 := emit [EvGet url] w in
  match http_get E url with
  | Raise e => (Ok saved, log [skip_line url e] w1)
  | Ok r =>
      if large_enough r && names_image r then
        let dest := IMAGES_DIR ++ [image_name saved (extension (header_content_type r))] in
        match write_error (E:=E) (fs w) dest with
        | Some e => (Ok saved, log [skip_line url e] w1)
        | None =>
            (Ok (saved + 1),
             log [saved_line (saved + 1) dest r]
                 (emit [EvWrite dest (content r)] (store dest (EFile (content r)) w1)))
        end
      else (Ok saved, w1)
  end.
Proof.
  unfold fetch, try_except, attempt, bind, client_get. cbv zeta.
  destruct (http_get E url) as [r|e]; [|done].
  unfold large_enough, names_image.
  rewrite Nat.ltb_antisym.
  destruct (MIN_SIZE <=? length (content r)); simpl; [|done].
  destruct (PyStr.contains "image" (header_content_type r)); simpl; [|done].
  unfold write_bytes, print, ret. simpl.
  by destruct (write_error _ _).
Qed.

(** Handling a URL never raises, requests it once, and can only add to the
    files. *)
Lemma fetch_frame {E : Env} (url : string) (saved : nat) (w : World (browser E)) :
  ∃ saved' w' lines evs,
    fetch url saved w = (Ok saved', w')
    ∧ stdout w' = stdout w ++ lines
    ∧ trace w' = trace w ++ EvGet url :: evs
    ∧ page w' = page w
    ∧ (saved' = saved ∧ fs w' = fs w ∧ evs = []
       ∨ ∃ r, http_get E url = Ok r
              ∧ large_enough r = true ∧ names_image r = true
              ∧ saved' = saved + 1
              ∧ write_error (E:=E) (fs w)
                  (IMAGES_DIR ++ [image_name saved (extension (header_content_type r))]) = None
              ∧ fs w' = <[IMAGES_DIR ++ [image_name saved (extension (header_content_type r))]
                          := EFile (content r)]> (fs w)
              ∧ evs = [EvWrite (IMAGES_DIR ++ [image_name saved (extension (header_content_type r))])
                               (content r)]).
Proof.
  rewrite fetch_run. cbv zeta.
  destruct (http_get E url) as [r|e] eqn:Hget.
  - destruct (large_enough r && names_image r) eqn:Hok.
    + apply andb_true_iff in Hok as [Hlarge Himage].
      destruct (write_error _ _) as [e|] eqn:Hwr.
      * eexists _, _, _, []. split; [done|]. repeat split; auto.
      * eexists _, _, _, _. split; [done|]. simpl.
        split; [done|]. split; [by rewrite <- app_assoc|]. split; [done|].
        right. by exists r.
    + eexists _, _, [], []. split; [done|]. simpl. rewrite app_nil_r.
      repeat split; auto.
  - eexists _, _, _, []. split; [done|]. repeat split; auto.
Qed.


Lemma writes_app (tr tr' : list event) :
  writes (tr ++ tr') = writes tr ++ writes tr'.
Proof. apply omap_app. Qed.



(** C2, as the code has it. Handling a URL writes a file only if the body
    has at least 5000 bytes and the content type, [image/jpeg] when the
    header is absent, contains the text [image]; the file then holds the
    body. A response that is smaller, or whose content type does not
    contain [image], is skipped: the counter and the files stay as they
    were and nothing but the request is recorded. *)
Theorem fetch_writes_only_large_images (E : Env) (url : string) (saved : nat)
    (w : World (browser E)) :
  ∃ saved' w',
    fetch url saved w = (Ok saved', w')
    ∧ (fs w' = fs w ∧ writes (trace w') = writes (trace w)
       ∨ ∃ r dest,
           http_get E url = Ok r
           ∧ MIN_SIZE ≤ length (content r)
           ∧ PyStr.contains "image" (header_content_type r) = true
           ∧ fs w' = <[dest := EFile (content r)]> (fs w)
           ∧ writes (trace w') = writes (trace w) ++ [(dest, content r)])
    ∧ (∀ r, http_get E url = Ok r →
         length (content r) < MIN_SIZE
         ∨ PyStr.contains "image" (header_content_type r) = false →
         saved' = saved ∧ w' = emit [EvGet url] w).
Proof.
  destruct (fetch_frame url saved w)
    as (saved' & w' & lines & evs & Hrun & Hout & Htr & _ & Hcase).
  exists saved', w'. split; [done|]. split.
  - destruct Hcase as [(_ & Hfs & ->)|(r & Hget & Hlarge & Himage & _ & _ & Hfs & ->)].
    + left. split; [done|]. rewrite Htr, writes_app. simpl. by rewrite app_nil_r.
    + right. eexists r, _. split; [done|].
      split; [by apply Nat.leb_le|]. split; [done|]. split; [done|].
      by rewrite Htr, writes_app.
  - intros r Hget Hskip. rewrite fetch_run, Hget in Hrun. cbv zeta in Hrun.
    assert (large_enough r && names_image r = false) as Hno.
    { apply andb_false_iff. destruct Hskip as [Hsmall|Hct]; [left|by right].
      apply Nat.leb_gt. done. }
    rewrite Hno in Hrun. by injection Hrun as <- <-.
Qed.

(** C2, as the specification words it, fails: a large SVG image has a
    content type outside the listed ones, and it is written all the same,
    under the fallback extension. *)
Lemma svg_is_written :
  ¬ writes_only_allowlisted (E:=sample_env []) "https://c.example/logo" 0 fresh_world.
Proof.
  intros H.
  destruct (fetch (E:=sample_env []) "https://c.example/logo" 0 fresh_world)
    as [res w'] eqn:Hrun.
  assert (res = Ok 1
          ∧ fs w' !! (IMAGES_DIR ++ ["img_0000.jpg"]) = Some (EFile (body 5000)))
    as [-> Hfile].
  { rewrite fetch_run in Hrun. vm_compute in Hrun. injection Hrun as <- <-.
    split; [done|]. by vm_compute. }
  destruct (H 1 w' Hrun) as (r & Hget & _ & Hallow).
  - intros Heq. rewrite Heq in Hfile. by vm_compute in Hfile.
  - vm_compute in Hget. injection Hget as <-. by vm_compute in Hallow.
Qed.

Lemma extension_fallback (ct : string) :
  subtype ct ∉ known_exts → extension ct = "jpg".
Proof. intros H. unfold extension. by rewrite bool_decide_eq_false_2. Qed.

(** C9. A response without a content-type header is handled as
    [image/jpeg]: it passes the image test and, with a body of at least 5000
    bytes, is saved under the extension [jpg]. So is every response that
    passes the tests and whose subtype, as the code reads it off the content
    type, is none of jpg, png, gif, webp, avif after jpeg became jpg. *)
Theorem fallback_extension_is_jpg (E : Env) (url : string) (saved : nat)
    (w : World (browser E)) (r : response) :
  http_get E url = Ok r →
  MIN_SIZE ≤ length (content r) →
  content_type r = None
  ∨ PyStr.contains "image" (header_content_type r) = true
    ∧ subtype (header_content_type r) ∉ known_exts →
  write_error (E:=E) (fs w) (IMAGES_DIR ++ [image_name saved "jpg"]) = None →
  (content_type r = None → header_content_type r = "image/jpeg")
  ∧ PyStr.contains "image" (header_content_type r) = true
  ∧ extension (header_content_type r) = "jpg"
  ∧ fetch url saved w =
      (Ok (saved + 1),
       log [saved_line (saved + 1) (IMAGES_DIR ++ [image_name saved "jpg"]) r]
         (emit [EvWrite (IMAGES_DIR ++ [image_name saved "jpg"]) (content r)]
            (store (IMAGES_DIR ++ [image_name saved "jpg"]) (EFile (content r))
               (emit [EvGet url] w)))).
Proof.
  intros Hget Hlarge Hct Hwr.
  assert (PyStr.contains "image" (header_content_type r) = true
          ∧ extension (header_content_type r) = "jpg") as [Himage Hext].
  { destruct Hct as [Hnone|[Himage Hsub]].
    - unfold header_content_type. by rewrite Hnone.
    - split; [done | by apply extension_fallback]. }
  split; [intros Hnone; unfold header_content_type; by rewrite Hnone|].
  split; [done|]. split; [done|].
  rewrite fetch_run, Hget. cbv zeta. unfold large_enough, names_image.
  rewrite (proj2 (Nat.leb_le _ _) Hlarge), Himage, Hext. simpl andb. cbv iota.
  by rewrite Hwr.
Qed.

Lemma fallback_extension_is_jpg_witness :
  fetch (E:=sample_env []) "https://a.example/cat" 0 fresh_world =
    (Ok 1,
     log [saved_line 1 (IMAGES_DIR ++ [image_name 0 "jpg"])
            (Response (body 5000) None)]
       (emit [EvWrite (IMAGES_DIR ++ [image_name 0 "jpg"]) (body 5000)]
          (store (IMAGES_DIR ++ [image_name 0 "jpg"]) (EFile (body 5000))
             (emit [EvGet "https://a.example/cat"] fresh_world))))
  ∧ fetch (E:=sample_env []) "https://c.example/logo" 0 fresh_world =
    (Ok 1,
     log [saved_line 1 (IMAGES_DIR ++ [image_name 0 "jpg"])
            (Response (body 5000) (Some "image/svg+xml"))]
       (emit [EvWrite (IMAGES_DIR ++ [image_name 0 "jpg"]) (body 5000)]
          (store (IMAGES_DIR ++ [image_name 0 "jpg"]) (EFile (body 5000))
             (emit [EvGet "https://c.example/logo"] fresh_world)))).
Proof.
  split.
  - apply (fallback_extension_is_jpg (sample_env []) "https://a.example/cat" 0
             fresh_world (Response (body 5000) None)).
    + reflexivity.
    + vm_compute. apply Nat.leb_le. vm_compute. reflexivity.
    + left. reflexivity.
    + vm_compute. reflexivity.
  - apply (fallback_extension_is_jpg (sample_env []) "https://c.example/logo" 0
             fresh_world (Response (body 5000) (Some "image/svg+xml"))).
    + reflexivity.
    + apply Nat.leb_le. vm_compute. reflexivity.
    + right. split; [vm_compute; reflexivity|].
      apply (bool_decide_eq_false_1 (subtype "image/svg+xml" ∈ known_exts)).
      vm_compute. reflexivity.
    + vm_compute. reflexivity.
Defined.

(** *** The files of a pass *)

Lemma numbered_lookup (k0 k : nat) (rs : list response) :
  numbered k0 rs !! k =
  (λ r, (IMAGES_DIR ++ [image_name (k0 + k) (extension (header_content_type r))],
         content r)) <$> rs !! k.
Proof. unfold numbered. apply list_lookup_imap. Qed.

Lemma numbered_snoc (k0 : nat) (rs : list response) (r : response) :
  numbered k0 (rs ++ [r]) =
  numbered k0 rs
  ++ [(IMAGES_DIR ++ [image_name (k0 + length rs) (extension (header_content_type r))],
       content r)].
Proof. unfold numbered. rewrite imap_app. simpl. by rewrite Nat.add_0_r. Qed.

Lemma numbered_NoDup (k0 : nat) (rs : list response) :
  NoDup (numbered k0 rs).*1.
Proof.
  apply NoDup_alt. intros i j p Hi Hj.
  rewrite list_lookup_fmap, numbered_lookup in Hi, Hj.
  destruct (rs !! i) as [ri|]; [|done]. destruct (rs !! j) as [rj|]; [|done].
  simpl in Hi, Hj. rewrite <- Hi in Hj.
  apply (f_equal (λ o, match o with Some [_; n] => n | _ => "" end)) in Hj.
  simpl in Hj. apply image_name_inj in Hj as [Hj _]. lia.
Qed.

Lemma numbered_below (k0 : nat) (rs : list response) (p : path) (data : list byte) :
  (p, data) ∈ numbered k0 rs →
  ∃ k r, k < length rs ∧ p = IMAGES_DIR ++ [image_name (k0 + k) (extension (header_content_type r))].
Proof.
  intros [k Hk]%list_elem_of_lookup. rewrite numbered_lookup in Hk.
  destruct (rs !! k) as [r|] eqn:Hr; [|done]. injection Hk as <- _.
  exists k, r. split; [by eapply lookup_lt_Some | done].
Qed.

Lemma length_zeros (k : nat) : String.length (PyStr.zeros k) = k.
Proof. induction k; simpl; by rewrite ?IHk. Qed.

Lemma length_append (s t : string) :
  String.length (s +:+ t) = String.length s + String.length t.
Proof. induction s as [|c s IH]; simpl; by rewrite ?IH. Qed.

Lemma format_04d_length (k : nat) :
  String.length (PyStr.format_04d k) = 4 `max` String.length (PyStr.str k).
Proof. unfold PyStr.format_04d. rewrite length_append, length_zeros. lia. Qed.

(** The download pass, in full: it returns the number of responses it
    saved, records one write per saved response under the numbered names,
    and changes no other file. *)
Lemma download_run {E : Env} (urls : gset string) (w : World (browser E)) :
  ∃ n w' (rs : list response) evs,
    download urls w = (Ok n, w')
    ∧ length rs = n
    ∧ trace w' = trace w ++ evs
    ∧ writes evs = numbered 0 rs
    ∧ Forall (λ r, ∃ url, url ∈ urls ∧ http_get E url = Ok r) rs
    ∧ (∀ p data, (p, data) ∈ numbered 0 rs → fs w' !! p = Some (EFile data))
    ∧ (∀ p, fs w' !! p = fs w !! p ∨ ∃ data, (p, data) ∈ numbered 0 rs).
Proof.
  pose (P := λ (_ : list string) (saved : nat) (w' : World (browser E)),
    ∃ (rs : list response) evs,
      length rs = saved
      ∧ trace w' = trace w ++ evs
      ∧ writes evs = numbered 0 rs
      ∧ Forall (λ r, ∃ url, url ∈ urls ∧ http_get E url = Ok r) rs
      ∧ (∀ p data, (p, data) ∈ numbered 0 rs → fs w' !! p = Some (EFile data))
      ∧ (∀ p, fs w' !! p = fs w !! p ∨ ∃ data, (p, data) ∈ numbered 0 rs)).
  destruct (for_each_invariant fetch (λ url, url ∈ urls) P) with
    (items := sorted urls) (seen := @nil string) (s := 0) (w := w)
    as (n & w' & Hrun & rs & evs & Hlen & Htr & Hwr & Hrs & Hfs & Hframe).
  - intros seen url saved w1 Hin (rs & evs & Hlen & Htr & Hwr & Hrs & Hfs & Hframe).
    destruct (fetch_frame url saved w1)
      as (saved' & w2 & lines & evs2 & Hrun & _ & Htr2 & _ & Hcase).
    exists saved', w2. split; [done|].
    destruct Hcase as [(-> & Hfs2 & ->)
                      |(r & Hget & _ & _ & -> & _ & Hfs2 & ->)].
    + exists rs, (evs ++ [EvGet url]). split; [done|]. split.
      { by rewrite Htr2, Htr, <- app_assoc. }
      split; [rewrite writes_app, Hwr; simpl; by rewrite app_nil_r|].
      split; [done|]. rewrite Hfs2. done.
    + exists (rs ++ [r]),
        (evs ++ [EvGet url;
                 EvWrite (IMAGES_DIR ++ [image_name saved (extension (header_content_type r))])
                         (content r)]).
      split; [rewrite length_app; simpl; lia|].
      split; [by rewrite Htr2, Htr, <- app_assoc|].
      rewrite numbered_snoc, Hlen. simpl.
      split; [by rewrite writes_app, Hwr|].
      split; [apply Forall_app; split; [done|]; apply Forall_singleton; eauto|].
      split.
      * intros p data [Hold|Hnew%list_elem_of_singleton]%elem_of_app.
        -- rewrite Hfs2, lookup_insert_ne; [by apply Hfs|].
           apply numbered_below in Hold as (k & r' & Hk & ->).
           intros Heq.
           apply (f_equal (λ p, match p with [_; n] => n | _ => "" end)) in Heq.
           simpl in Heq. apply image_name_inj in Heq as [Heq _]. lia.
        -- injection Hnew as -> ->. by rewrite Hfs2, lookup_insert_eq.
      * intros p. rewrite Hfs2.
        destruct (decide
          (IMAGES_DIR ++ [image_name saved (extension (header_content_type r))] = p))
          as [<-|Hne].
        -- right. exists (content r). apply elem_of_app. right. by left.
        -- rewrite lookup_insert_ne by done.
           destruct (Hframe p) as [?|[data ?]]; [by left|].
           right. exists data. apply elem_of_app. by left.
  - apply Forall_forall. intros url. apply elem_of_sorted.
  - exists [], []. simpl. rewrite app_nil_r. repeat split; try done.
    + intros ?? []%elem_of_nil.
    + by left.
  - by exists n, w', rs, evs.
Qed.

(** C5. A pass of [download] that saves [n] files returns [n], and the
    files are numbered from 0 without a gap: the [k]-th response saved goes
    to [images/img_<k>.<ext>], where [<k>] is [k] in decimal, padded with
    zeros to four digits, and [<ext>] is read off the content type of that
    response. The [n] names differ, and after the pass each file holds the
    body saved to it. *)
Theorem download_numbers_files (E : Env) (urls : gset string)
    (w : World (browser E)) :
  ∃ n w' (rs : list response),
    download urls w = (Ok n, w')
    ∧ length rs = n
    ∧ writes (trace w') = writes (trace w) ++ numbered 0 rs
    ∧ (∀ k r, rs !! k = Some r →
         (∃ url, url ∈ urls ∧ http_get E url = Ok r)
         ∧ numbered 0 rs !! k =
             Some (["images"; "img_" +:+ PyStr.format_04d k +:+ "."
                              +:+ extension (header_content_type r)],
                   content r))
    ∧ (∀ k, all_digits (PyStr.format_04d k) = true
            ∧ decimal_value (PyStr.format_04d k) = Some k
            ∧ String.length (PyStr.format_04d k) = 4 `max` String.length (PyStr.str k))
    ∧ NoDup (numbered 0 rs).*1
    ∧ (∀ p data, (p, data) ∈ numbered 0 rs → fs w' !! p = Some (EFile data)).
Proof.
  destruct (download_run urls w)
    as (n & w' & rs & evs & Hrun & Hlen & Htr & Hwr & Hrs & Hfs & _).
  exists n, w', rs. split; [done|]. split; [done|].
  split; [by rewrite Htr, writes_app, Hwr|]. split.
  { intros k r Hk. split.
    - eapply Forall_forall in Hrs; [done|]. by eapply list_elem_of_lookup_2.
    - by rewrite numbered_lookup, Hk. }
  split.
  { intros k. split; [apply all_digits_format_04d|].
    split; [apply decimal_value_format_04d | apply format_04d_length]. }
  split; [apply numbered_NoDup | done].
Qed.

(** ** The gallery *)

Lemma parts_compare_antisym (p q : path) :
  parts_compare q p = CompOpp (parts_compare p q).
Proof.
  revert q. induction p as [|a p IH]; intros [|b q]; simpl; try done.
  rewrite (String.compare_antisym a b).
  destruct (String.compare b a); simpl; [apply IH | done | done].
Qed.

Lemma path_le_total : Total path_le.
Proof.
  intros p q. unfold path_le. rewrite (parts_compare_antisym p q).
  destruct (parts_compare p q); simpl; auto.
Qed.

Lemma elem_of_rglob (d p : path) (files : gmap path entry) :
  p ∈ rglob d files ↔ below d p = true ∧ is_Some (files !! p).
Proof.
  unfold rglob. rewrite list_elem_of_filter, list_elem_of_fmap. split.
  - intros [Hb [[p' e] [-> Hin%elem_of_map_to_list]]]. eauto.
  - intros [Hb [e He]]. split; [done|]. exists (p, e). split; [done|].
    by apply elem_of_map_to_list.
Qed.

Lemma elem_of_list_images (p : path) (files : gmap path entry) :
  p ∈ list_images files
  ↔ is_image p = true ∧ below IMAGES_DIR p = true ∧ is_Some (files !! p).
Proof.
  unfold list_images. rewrite merge_sort_Permutation, list_elem_of_filter.
  by rewrite elem_of_rglob.
Qed.



(** What [build_html] does, case by case. *)
Lemma build_html_run {E : Env} (w : World (browser E)) :
  build_html w =
  match list_images (fs w) with
  | [] => (Ok (), log ["No images to build gallery from."] w)
  | images =>
      match write_error (E:=E) (fs w) index_html with
      | Some e => (Raise e, w)
      | None =>
          (Ok (),
           log ["Built index.html with " +:+ PyStr.str (length images) +:+ " images"]
             (emit [EvWrite index_html (list_byte_of_string (gallery_html images))]
                (store index_html (EFile (list_byte_of_string (gallery_html images))) w)))
      end
  end.
Proof.
  unfold build_html, bind. destruct (list_images (fs w)) as [|p images]; [done|].
  unfold write_text, write_bytes. by destruct (write_error _ _).
Qed.

(** With no entry of a recognised extension below the images directory, be
    it a file or a folder, [build_html] prints one line and changes nothing
    else: index.html is neither created nor rewritten, and no file of the
    images directory is touched. *)
Theorem build_html_without_images (E : Env) (w : World (browser E)) :
  (∀ p, is_Some (fs w !! p) → below IMAGES_DIR p = true → is_image p = false) →
  build_html w = (Ok (), log ["No images to build gallery from."] w)
  ∧ fs (build_html w).2 = fs w
  ∧ trace (build_html w).2 = trace w.
Proof.
  intros Hnone. rewrite build_html_run.
  destruct (list_images (fs w)) as [|p images] eqn:Himages; [done|].
  assert (p ∈ list_images (fs w)) as Hp by (rewrite Himages; left).
  apply elem_of_list_images in Hp as (Himg & Hbelow & Hsome).
  by rewrite (Hnone p Hsome Hbelow) in Himg.
Qed.

Lemma build_html_without_images_witness :
  build_html (E:=sample_env []) fresh_world
  = (Ok (), log ["No images to build gallery from."] fresh_world).
Proof.
  apply (build_html_without_images (sample_env []) fresh_world).
  intros p [e Hp] Hbelow. unfold fresh_world in Hp. simpl in Hp.
  apply lookup_singleton_Some in Hp as [<- _]. discriminate Hbelow.
Defined.

(** C10 fails on the code: a folder below the images directory whose name
    ends like an image counts as an image. Here the directory holds no file
    at all, and [build_html] still creates index.html, with a tag for the
    folder. *)
Theorem folder_named_like_image_is_listed :
  no_image_file (fs folder_world)
  ∧ fs folder_world !! index_html = None
  ∧ ∃ w', build_html (E:=sample_env []) folder_world = (Ok (), w')
          ∧ fs w' !! index_html =
              Some (EFile (list_byte_of_string
                             (gallery_html [IMAGES_DIR ++ ["thumbs.png"]]))).
Proof.
  split; [|split; [done|]].
  - intros p data Hp _. exfalso. unfold folder_world in Hp. simpl in Hp.
    apply lookup_insert_Some in Hp as [[_ [=]]|[_ Hp]].
    apply lookup_singleton_Some in Hp as [_ [=]].
  - eexists. split; [by vm_compute|]. by vm_compute.
Qed.

(** ** The whole run *)





(** [load_firefox_cookies] never raises. *)
Lemma load_firefox_cookies_run {E : Env} (w : World (browser E)) :
  ∃ cookies lines, load_firefox_cookies w = (Ok cookies, log lines w).
Proof.
  unfold load_firefox_cookies, try_except, bind.
  destruct (import_browser_cookie3 E) as [e|]; simpl.
  - by exists [], [no_cookies_line e].
  - destruct (firefox E ".google.com") as [cj|e]; simpl.
    + exists (cookie_dict <$> cj), []. unfold log. rewrite app_nil_r. by destruct w.
    + by exists [], [no_cookies_line e].
Qed.





Lemma rfind_dot_last (s t : string) :
  PyStr.rfind_dot t = None →
  PyStr.rfind_dot (s +:+ String "." t) = Some (String.length s, String "." t).
Proof.
  intros Ht. induction s as [|c s IH]; simpl.
  - by rewrite Ht.
  - by rewrite IH.
Qed.

Lemma extension_known (ct : string) : extension ct ∈ known_exts.
Proof.
  unfold extension. case_bool_decide; [done|]. by left.
Qed.

(** A file saved by the downloader has a recognised extension. *)
Lemma is_image_saved (k : nat) (ct : string) :
  is_image (IMAGES_DIR ++ [image_name k (extension ct)]) = true.
Proof.
  pose proof (extension_known ct) as Hext.
  assert (∀ ext, PyStr.rfind_dot ext = None → 0 < String.length ext →
                 PyStr.lower (String "." ext) ∈ IMG_EXTS →
                 is_image (IMAGES_DIR ++ [image_name k ext]) = true) as Hone.
  { intros ext Hnodot Hlen Hin. unfold is_image. apply bool_decide_eq_true_2.
    unfold suffix. change (name (IMAGES_DIR ++ [image_name k ext]))
      with ("img_" +:+ PyStr.format_04d k +:+ String "." ext).
    rewrite <- append_assoc, rfind_dot_last by done.
    rewrite !length_append. simpl String.length.
    replace ((0 <? 4 + String.length (PyStr.format_04d k))
             && (4 + String.length (PyStr.format_04d k)
                 <? 4 + String.length (PyStr.format_04d k) + S (String.length ext) - 1))
      with true; [done|].
    symmetry. apply andb_true_iff. split; apply Nat.ltb_lt; lia. }
  unfold known_exts in Hext.
  repeat (apply elem_of_cons in Hext as [->|Hext];
          [apply Hone; [done | simpl; lia | vm_compute; set_solver]|]).
  by apply elem_of_nil in Hext.
Qed.







(** ** The cookies *)



Lemma oblivious_raise {E : Env} {A : Type} (e : exn) :
  oblivious (E:=E) (raise (A:=A) e).
Proof. by intros pre line w1 w2 H. Qed.





Lemma oblivious_const {E : Env} {A : Type} (r : outcome A) :
  oblivious (E:=E) (λ w, (r, w)).
Proof. by intros pre line w1 w2 H. Qed.













(** ** The properties on the sample site *)


Lemma candidate_set_grows_witness :
  urls_after (E:=sample_env sample_urls) 0 fresh_world
  ⊆ urls_after (E:=sample_env sample_urls) 1 fresh_world
  ∧ add "https://a.example/cat" (list_to_set sample_urls) = list_to_set sample_urls.
Proof.
  destruct (candidate_set_grows (sample_env sample_urls) fresh_world 0)
    as (Hgrow & _ & Hadd & _).
  split; [exact Hgrow|]. apply Hadd. vm_compute. reflexivity.
Defined.


Lemma fetch_writes_only_large_images_witness :
  ∃ saved' w',
    fetch (E:=sample_env []) "https://e.example/icon.png" 0 fresh_world = (Ok saved', w')
    ∧ saved' = 0
    ∧ w' = emit [EvGet "https://e.example/icon.png"] fresh_world.
Proof.
  destruct (fetch_writes_only_large_images (sample_env [])
              "https://e.example/icon.png" 0 fresh_world)
    as (saved' & w' & Hrun & _ & Hskip).
  exists saved', w'. split; [exact Hrun|].
  apply (Hskip (Response (body 10) (Some "image/png"))); [reflexivity|].
  left. vm_compute. lia.
Defined.

Lemma download_numbers_files_witness :
  ∃ n w' (rs : list response),
    download (E:=sample_env []) (list_to_set sample_urls) fresh_world = (Ok n, w')
    ∧ length rs = n
    ∧ writes (trace w') = writes (trace fresh_world) ++ numbered 0 rs
    ∧ NoDup (numbered 0 rs).*1.
Proof.
  destruct (download_numbers_files (sample_env []) (list_to_set sample_urls)
              fresh_world)
    as (n & w' & rs & Hrun & Hlen & Hwr & _ & _ & Hnodup & _).
  exists n, w', rs. split; [exact Hrun|]. split; [exact Hlen|].
  split; [exact Hwr | exact Hnodup].
Defined.


(** ** More on [make_url] and [quote] *)

Lemma chars_all_app (ok : ascii → bool) (s t : string) :
  chars_all ok (s +:+ t) = chars_all ok s && chars_all ok t.
Proof. induction s as [|c s IH]; [done|]. simpl. by rewrite IH, andb_assoc. Qed.

Lemma chars_all_weaken (ok ok' : ascii → bool) (s : string) :
  (∀ c, ok c = true → ok' c = true) → chars_all ok s = true → chars_all ok' s = true.
Proof.
  intros H. induction s as [|c s IH]; [done|]. simpl.
  intros [Hc Hs]%andb_true_iff. by rewrite (H c Hc), IH.
Qed.

Lemma quoter_quoted (c : ascii) : chars_all quoted_char (Urllib.quoter "/" c) = true.
Proof. by destruct c as [[] [] [] [] [] [] [] []]. Qed.

Lemma percent_encoding_quoted (s : string) :
  chars_all quoted_char (percent_encoding s) = true.
Proof.
  induction s as [|c s IH]; [done|].
  rewrite <- quoter_percent_encoding, chars_all_app, quoter_quoted, IH. done.
Qed.

Lemma quoted_is_search_url_char (c : ascii) :
  quoted_char c = true → search_url_char c = true.
Proof. by destruct c as [[] [] [] [] [] [] [] []]. Qed.

(** The search URL is plain ASCII. Whatever the query holds (spaces,
    quotes, Arabic text), [quote] returns only unreserved characters,
    slashes and percent signs, so the URL built from a query consists of
    letters, digits and the marks [_ . - ~ / % : ? = &]. *)
Theorem search_url_is_ascii (s : string) :
  PyStr.startswith s "http" = false →
  chars_all quoted_char (Urllib.quote s) = true
  ∧ chars_all search_url_char (make_url s) = true.
Proof.
  intros Hs. rewrite quote_percent_encoding. split; [apply percent_encoding_quoted|].
  unfold make_url. rewrite Hs, quote_percent_encoding, !chars_all_app.
  rewrite (chars_all_weaken quoted_char search_url_char _ quoted_is_search_url_char
             (percent_encoding_quoted s)).
  done.
Qed.

Lemma search_url_is_ascii_witness :
  chars_all quoted_char (Urllib.quote default_query) = true
  ∧ chars_all search_url_char (make_url default_query) = true.
Proof. apply (search_url_is_ascii default_query). vm_compute. reflexivity. Defined.

(** [make_url] is idempotent: its result starts with [http], so applying
    it again, as to a URL given on the command line, changes nothing. *)
Theorem make_url_idempotent (s : string) :
  PyStr.startswith (make_url s) "http" = true
  ∧ make_url (make_url s) = make_url s.
Proof.
  assert (PyStr.startswith (make_url s) "http" = true) as H.
  { unfold make_url. destruct (PyStr.startswith s "http") eqn:Hs; [done|]. done. }
  split; [done|]. unfold make_url at 1. by rewrite H.
Qed.

Lemma hex_upper_char (n : nat) :
  n < 16 → ∃ c, hex_upper n = String c "" ∧ c ≠ "%"%char.
Proof. intros H. do 16 (destruct n as [|n]; [by eexists|]). lia. Qed.

Lemma hex_upper_inj (n m : nat) :
  n < 16 → m < 16 → hex_upper n = hex_upper m → n = m.
Proof.
  intros Hn Hm.
  do 16 (destruct n as [|n];
         [do 16 (destruct m as [|m]; [done|]); lia|]).
  lia.
Qed.

Lemma percent_encoding_cons (c : ascii) (s : string) :
  percent_encoding (String c s) =
  (if unreserved c || Ascii.eqb c "/"
   then String c ""
   else "%" +:+ hex_upper (nat_of_ascii c / 16) +:+ hex_upper (nat_of_ascii c mod 16))
  +:+ percent_encoding s.
Proof. done. Qed.

Lemma nat_of_ascii_hex (c : ascii) :
  nat_of_ascii c / 16 < 16 ∧ nat_of_ascii c mod 16 < 16.
Proof.
  pose proof (nat_ascii_bounded c). split.
  - apply Nat.Div0.div_lt_upper_bound. lia.
  - apply Nat.mod_upper_bound. lia.
Qed.

Lemma percent_encoding_inj (s t : string) :
  percent_encoding s = percent_encoding t → s = t.
Proof.
  revert t. induction s as [|c s IH]; intros [|d t].
  - done.
  - rewrite percent_encoding_cons. destruct (nat_of_ascii_hex d) as [H1 H2].
    destruct (_ || _); [done|]. done.
  - rewrite percent_encoding_cons. destruct (_ || _); done.
  - rewrite !percent_encoding_cons.
    destruct (nat_of_ascii_hex c) as [Hc1 Hc2], (nat_of_ascii_hex d) as [Hd1 Hd2].
    destruct (hex_upper_char _ Hc1) as (c1 & Ec1 & _), (hex_upper_char _ Hc2) as (c2 & Ec2 & _).
    destruct (hex_upper_char _ Hd1) as (d1 & Ed1 & _), (hex_upper_char _ Hd2) as (d2 & Ed2 & _).
    destruct (unreserved c || Ascii.eqb c "/") eqn:Hsc,
             (unreserved d || Ascii.eqb d "/") eqn:Hsd.
    + simpl. intros [= -> Heq]. f_equal. by apply IH.
    + rewrite Ed1, Ed2. simpl. intros [= -> _]. done.
    + rewrite Ec1, Ec2. simpl. intros [= <- _]. done.
    + rewrite Ec1, Ec2, Ed1, Ed2. simpl. intros [= <- <- Heq].
      rewrite <- Ed1 in Ec1. rewrite <- Ed2 in Ec2.
      apply hex_upper_inj in Ec1; [|done..]. apply hex_upper_inj in Ec2; [|done..].
      f_equal; [|by apply IH].
      rewrite <- (ascii_nat_embedding c), <- (ascii_nat_embedding d). f_equal.
      rewrite (Nat.div_mod_eq (nat_of_ascii c) 16), (Nat.div_mod_eq (nat_of_ascii d) 16).
      by rewrite Ec1, Ec2.
Qed.

Lemma append_inv_tail (s t u : string) : s +:+ u = t +:+ u → s = t.
Proof.
  revert t. induction s as [|c s IH]; intros [|d t] H; simpl in H.
  - done.
  - apply (f_equal String.length) in H. simpl in H. rewrite length_append in H. lia.
  - apply (f_equal String.length) in H. simpl in H. rewrite length_append in H. lia.
  - injection H as -> H. f_equal. by apply IH.
Qed.

(** [quote] loses nothing: two different strings have different encodings,
    so two different queries, neither starting with [http], never give the
    same search URL. *)
Theorem search_url_is_injective (s t : string) :
  (s ≠ t → Urllib.quote s ≠ Urllib.quote t)
  ∧ (PyStr.startswith s "http" = false → PyStr.startswith t "http" = false →
     s ≠ t → make_url s ≠ make_url t).
Proof.
  split.
  - intros Hne Heq. apply Hne. rewrite !quote_percent_encoding in Heq.
    by apply percent_encoding_inj.
  - intros Hs Ht Hne Heq. apply Hne. unfold make_url in Heq.
    rewrite Hs, Ht, !quote_percent_encoding in Heq.
    apply String.app_inj in Heq. apply append_inv_tail in Heq.
    by apply percent_encoding_inj.
Qed.

Lemma search_url_is_injective_witness :
  make_url "red fox" ≠ make_url "red%20fox".
Proof.
  apply (proj2 (search_url_is_injective "red fox" "red%20fox"));
    [reflexivity | reflexivity | discriminate].
Defined.

(** ** More on the cookies *)

(** When the profile can be read, [load_firefox_cookies] prints nothing and
    returns one dictionary per cookie, in the order of the jar, with the
    name and the value of the cookie; an empty domain becomes [.google.com]
    and an empty path becomes [/], so no dictionary has an empty domain or
    path. *)
Theorem cookies_are_converted (E : Env) (jar : list jar_cookie)
    (w : World (browser E)) :
  import_browser_cookie3 E = None →
  firefox E ".google.com" = Ok jar →
  ∃ cookies,
    load_firefox_cookies w = (Ok cookies, w)
    ∧ Forall2 (λ j c,
         ck_name c = c_name j ∧ ck_value c = c_value j
         ∧ ck_domain c = (if decide (c_domain j = "") then ".google.com" else c_domain j)
         ∧ ck_path c = (if decide (c_path j = "") then "/" else c_path j)
         ∧ ck_domain c ≠ "" ∧ ck_path c ≠ "") jar cookies.
Proof.
  intros Himport Hjar. exists (cookie_dict <$> jar). split.
  - unfold load_firefox_cookies, try_except, bind. rewrite Himport. simpl.
    by rewrite Hjar.
  - apply Forall2_fmap_r, Forall_Forall2_diag, Forall_forall. intros j _.
    unfold cookie_dict. simpl.
    destruct (String.eqb_spec (c_domain j) ""), (String.eqb_spec (c_path j) "");
      repeat case_decide; done.
Qed.

Lemma cookies_are_converted_witness :
  ∃ cookies,
    load_firefox_cookies (E:=profile_env sample_jar) fresh_world = (Ok cookies, fresh_world)
    ∧ Forall2 (λ j c,
         ck_name c = c_name j ∧ ck_value c = c_value j
         ∧ ck_domain c = (if decide (c_domain j = "") then ".google.com" else c_domain j)
         ∧ ck_path c = (if decide (c_path j = "") then "/" else c_path j)
         ∧ ck_domain c ≠ "" ∧ ck_path c ≠ "") sample_jar cookies.
Proof.
  apply (cookies_are_converted (profile_env sample_jar) sample_jar fresh_world);
    reflexivity.
Defined.

(** ** More on the download pass *)






(** Whatever the content type, the extension chosen for a file is one of
    jpg, png, gif, webp, avif, and the name [img_<k>.<ext>] passes the test
    [build_html] applies to the entries of the images directory. *)
Theorem saved_names_are_image_names (k : nat) (ct : string) :
  extension ct ∈ known_exts
  ∧ is_image (IMAGES_DIR ++ [image_name k (extension ct)]) = true
  ∧ PyStr.startswith (image_name k (extension ct)) "img_" = true.
Proof.
  split; [apply extension_known|]. split; [apply is_image_saved | done].
Qed.

(** ** More on the content type *)

Lemma split_nonempty (sep : ascii) (s : string) : PyStr.split sep s ≠ [].
Proof.
  induction s as [|c s IH]; simpl; [done|].
  destruct (Ascii.eqb c sep); [done|]. by destruct (PyStr.split sep s).
Qed.

(** [(a + sep + b).split(sep) == a.split(sep) + b.split(sep)] *)
Lemma split_app (sep : ascii) (a b : string) :
  PyStr.split sep (a +:+ String sep b) = PyStr.split sep a ++ PyStr.split sep b.
Proof.
  induction a as [|c a IH]; simpl.
  - by rewrite Ascii.eqb_refl.
  - destruct (Ascii.eqb c sep); [by rewrite IH|].
    rewrite IH. pose proof (split_nonempty sep a).
    by destruct (PyStr.split sep a).
Qed.

Lemma split_absent (sep : ascii) (s : string) :
  PyStr.mem sep s = false → PyStr.split sep s = [s].
Proof.
  unfold PyStr.mem. induction s as [|c s IH]; simpl; [done|].
  intros [Hc Hs]%orb_false_iff. rewrite Ascii.eqb_sym, Hc. by rewrite IH.
Qed.

Lemma mem_app (c : ascii) (s t : string) :
  PyStr.mem c (s +:+ t) = PyStr.mem c s || PyStr.mem c t.
Proof.
  unfold PyStr.mem. induction s as [|d s IH]; simpl; [done|].
  by rewrite IH, orb_assoc.
Qed.

Lemma last_app_singleton (l : list string) (s : string) :
  PyStr.last (l ++ [s]) = s.
Proof. unfold PyStr.last. apply last_last. Qed.

(** The extension is read off the text between the last slash and the first
    semicolon after it: for a content type [<type>/<sub>] or
    [<type>/<sub>;<parameters>] whose subtype is jpeg, jpg, png, gif, webp
    or avif and whose parameters hold no slash, the extension is that
    subtype, with jpg for jpeg, whatever the type and the parameters. *)
Theorem extension_ignores_parameters (type sub params : string) :
  sub ∈ ["jpeg"; "jpg"; "png"; "gif"; "webp"; "avif"] →
  PyStr.mem "/" params = false →
  extension (type +:+ "/" +:+ sub) = PyStr.replace "jpeg" "jpg" sub
  ∧ extension (type +:+ "/" +:+ sub +:+ ";" +:+ params) = PyStr.replace "jpeg" "jpg" sub
  ∧ PyStr.replace "jpeg" "jpg" sub ∈ known_exts.
Proof.
  intros Hsub Hparams.
  assert (PyStr.mem "/" sub = false ∧ PyStr.mem ";" sub = false
          ∧ PyStr.strip sub = sub
          ∧ PyStr.replace "jpeg" "jpg" sub ∈ known_exts) as (Hslash & Hsemi & Hstrip & Hknown).
  { repeat (apply elem_of_cons in Hsub as [->|Hsub];
            [repeat split; try done; vm_compute; set_solver|]).
    by apply elem_of_nil in Hsub. }
  assert (∀ rest, PyStr.mem "/" rest = false →
                  PyStr.first (PyStr.split ";" rest) = sub →
                  extension (type +:+ "/" +:+ rest) = PyStr.replace "jpeg" "jpg" sub) as Hext.
  { intros rest Hrest Hfirst. unfold extension, subtype.
    change (type +:+ "/" +:+ rest) with (type +:+ String "/" rest).
    rewrite split_app, (split_absent "/" rest Hrest), last_app_singleton.
    rewrite Hfirst, Hstrip. by rewrite bool_decide_eq_true_2. }
  split; [|split; [|done]].
  - apply Hext; [done|]. by rewrite split_absent.
  - apply Hext.
    + change (sub +:+ ";" +:+ params) with (sub +:+ String ";" params).
      rewrite mem_app, Hslash. simpl. unfold PyStr.mem in *. simpl. done.
    + change (sub +:+ ";" +:+ params) with (sub +:+ String ";" params).
      rewrite split_app, (split_absent ";" sub Hsemi). done.
Qed.

Lemma extension_ignores_parameters_witness :
  extension ("image" +:+ "/" +:+ "jpeg" +:+ ";" +:+ " charset=binary") = "jpg".
Proof.
  apply (extension_ignores_parameters "image" "jpeg" " charset=binary").
  - left.
  - reflexivity.
Defined.

(** ** More on the names the gallery lists *)

Lemma lower_char_dot (c : ascii) :
  Ascii.eqb (PyStr.lower_char c) "." = Ascii.eqb c ".".
Proof. by destruct c as [[] [] [] [] [] [] [] []]. Qed.

Lemma rfind_dot_lower (s : string) :
  PyStr.rfind_dot (PyStr.lower s)
  = (λ it : nat * string, (it.1, PyStr.lower it.2)) <$> PyStr.rfind_dot s.
Proof.
  induction s as [|c s IH]; [done|]. simpl. rewrite IH, lower_char_dot.
  destruct (PyStr.rfind_dot s) as [[i t]|]; simpl; [done|].
  by destruct (Ascii.eqb c ".").
Qed.

Lemma rfind_dot_split (s t : string) (i : nat) :
  PyStr.rfind_dot s = Some (i, t) →
  ∃ stem, s = stem +:+ t ∧ String.length stem = i.
Proof.
  revert i t. induction s as [|c s IH]; intros i t; simpl; [done|].
  destruct (PyStr.rfind_dot s) as [[j u]|].
  - intros [= <- <-]. destruct (IH j u eq_refl) as (stem & -> & <-).
    by exists (String c stem).
  - destruct (Ascii.eqb c "."); [|done]. intros [= <- <-]. by exists "".
Qed.

Lemma rfind_dot_app (stem ext : string) :
  PyStr.rfind_dot ext = Some (0, ext) →
  PyStr.rfind_dot (stem +:+ ext) = Some (String.length stem, ext).
Proof.
  intros H. induction stem as [|c stem IH]; simpl; [done|]. by rewrite IH.
Qed.

Lemma length_lower (s : string) : String.length (PyStr.lower s) = String.length s.
Proof. induction s as [|c s IH]; simpl; by rewrite ?IH. Qed.

Lemma empty_not_ext : "" ∉ IMG_EXTS.
Proof.
  intros H. unfold IMG_EXTS in H.
  repeat (apply elem_of_cons in H as [H|H]; [discriminate|]).
  by apply elem_of_nil in H.
Qed.

(** The entries the gallery lists, by name: the name is a non-empty stem
    followed by one of the six extensions in any mix of upper and lower
    case. So [a.PNG] is listed, and a name that is an extension and nothing
    else, such as [.png], is not. Only the last part of the path counts. *)
Theorem listed_names (p : path) :
  is_image p = true
  ↔ ∃ stem ext, name p = stem +:+ ext ∧ stem ≠ "" ∧ PyStr.lower ext ∈ IMG_EXTS.
Proof.
  unfold is_image. rewrite bool_decide_eq_true. unfold suffix. split.
  - destruct (PyStr.rfind_dot (name p)) as [[i t]|] eqn:Hdot.
    + destruct ((0 <? i) && (i <? String.length (name p) - 1)) eqn:Hi.
      * intros Hext. apply rfind_dot_split in Hdot as (stem & Hname & Hlen).
        exists stem, t. split; [done|]. split; [|done].
        apply andb_true_iff in Hi as [Hi%Nat.ltb_lt _]. intros ->. simpl in Hlen. lia.
      * intros Hext. by apply empty_not_ext in Hext.
    + intros Hext. by apply empty_not_ext in Hext.
  - intros (stem & ext & -> & Hstem & Hext).
    assert (PyStr.rfind_dot (PyStr.lower ext) = Some (0, PyStr.lower ext)
            ∧ 2 ≤ String.length (PyStr.lower ext)) as [Hdot Hlen].
    { unfold IMG_EXTS in Hext.
      repeat (apply elem_of_cons in Hext as [->|Hext]; [split; [done | simpl; lia]|]).
      by apply elem_of_nil in Hext. }
    rewrite length_lower in Hlen. rewrite rfind_dot_lower in Hdot.
    destruct (PyStr.rfind_dot ext) as [[i t]|] eqn:Hdot'; [|done].
    simpl in Hdot. injection Hdot as -> _.
    destruct (rfind_dot_split _ _ _ Hdot') as (stem0 & Heq & Hlen0).
    destruct stem0; [|done]. simpl in Heq. subst t.
    rewrite (rfind_dot_app stem ext Hdot'), length_append.
    replace ((0 <? String.length stem)
             && (String.length stem <? String.length stem + String.length ext - 1))
      with true; [done|].
    symmetry. apply andb_true_iff. split; apply Nat.ltb_lt; [|lia].
    destruct stem; [done | simpl; lia].
Qed.

(** ** More on the scans *)

Lemma elem_of_scan_ou {E : Env} (html : string) (urls : gset string) (u : string) :
  u ∈ scan_ou (E:=E) html urls
  ↔ u ∈ urls ∨ ∃ m, m ∈ re_finditer E pattern_ou false html ∧ group1 m = u.
Proof.
  unfold scan_ou. generalize (re_finditer E pattern_ou false html).
  intros ms. revert urls. induction ms as [|m ms IH]; intros urls; simpl.
  - split; [by left | intros [?|(m & []%elem_of_nil & _)]; done].
  - rewrite IH. unfold add. rewrite elem_of_union, elem_of_singleton. split.
    + intros [[->|?]|(m' & Hm' & <-)]; [right; exists m; split; [left|done]
                                        | by left
                                        | right; exists m'; split; [by right|done]].
    + intros [?|(m' & [->|Hm']%elem_of_cons & <-)];
        [left; by right | left; by left | right; by exists m'].
Qed.

Lemma elem_of_keep_img {E : Env} (urls : gset string) (m : re_match) (u : string) :
  u ∈ keep_img (E:=E) urls m
  ↔ u ∈ urls
    ∨ u = PyStr.rstrip_chars "\,;)" (group0 m) ∧ outside_skipped (E:=E) u.
Proof.
  unfold keep_img, outside_skipped.
  destruct (re_search E pattern_host (PyStr.rstrip_chars "\,;)" (group0 m)))
    as [host|] eqn:Hhost.
  - destruct (existsb _ skip_domains) eqn:Hskip; simpl.
    + split; [by left|]. intros [?|[-> (host' & Hhost' & Hall)]]; [done|].
      rewrite Hhost in Hhost'. injection Hhost' as <-.
      apply existsb_exists in Hskip as (d & Hd%list_elem_of_In & Hc).
      eapply Forall_forall in Hall; [|done]. congruence.
    + unfold add. rewrite elem_of_union, elem_of_singleton. split.
      * intros [->|?]; [right|by left]. split; [done|]. exists host. split; [done|].
        apply Forall_forall. intros d Hd%list_elem_of_In.
        destruct (PyStr.contains d (group1 host)) eqn:Hc; [|done].
        assert (existsb (λ d, PyStr.contains d (group1 host)) skip_domains = true)
          as Hex by (apply existsb_exists; eauto).
        congruence.
      * intros [?|[-> _]]; [by right | by left].
  - split; [by left|]. intros [?|[-> (host' & Hhost' & _)]]; [done|]. congruence.
Qed.

Lemma elem_of_scan_img {E : Env} (html : string) (urls : gset string) (u : string) :
  u ∈ scan_img (E:=E) html urls
  ↔ u ∈ urls
    ∨ (∃ m, m ∈ re_finditer E pattern_img true html
            ∧ u = PyStr.rstrip_chars "\,;)" (group0 m))
      ∧ outside_skipped (E:=E) u.
Proof.
  unfold scan_img. generalize (re_finditer E pattern_img true html).
  intros ms. revert urls. induction ms as [|m ms IH]; intros urls; simpl.
  - split; [by left | intros [?|[(m & []%elem_of_nil & _) _]]; done].
  - rewrite IH, elem_of_keep_img. split.
    + intros [[?|[-> Hout]]|[(m' & Hm' & ->) Hout]].
      * by left.
      * right. split; [|done]. exists m. split; [left | done].
      * right. split; [|done]. exists m'. split; [by right | done].
    + intros [?|[(m' & [->|Hm']%elem_of_cons & ->) Hout]].
      * left. by left.
      * left. by right.
      * right. split; [|done]. by exists m'.
Qed.

(** One scan of the markup, exactly: the set afterwards holds what it held
    before, the first group of every match of pattern 1, unfiltered, and,
    of every match of pattern 2 stripped of trailing [\ , ; )], the ones
    whose host is found and contains none of the four skipped domain names.
    Nothing else gets in, and nothing is removed. *)
Theorem scan_adds_exactly (E : Env) (html : string) (urls : gset string)
    (u : string) :
  u ∈ scan_img (E:=E) html (scan_ou (E:=E) html urls)
  ↔ u ∈ urls
    ∨ (∃ m, m ∈ re_finditer E pattern_ou false html ∧ group1 m = u)
    ∨ (∃ m, m ∈ re_finditer E pattern_img true html
            ∧ u = PyStr.rstrip_chars "\,;)" (group0 m))
      ∧ outside_skipped (E:=E) u.
Proof. rewrite elem_of_scan_img, elem_of_scan_ou. tauto. Qed.

(** ** More on trimming *)

Lemma rstrip_chars_split (chars s : string) :
  ∃ t, s = PyStr.rstrip_chars chars s +:+ t
       ∧ chars_all (λ c, PyStr.mem c chars) t = true.
Proof.
  induction s as [|c s (t & Hs & Ht)]; [by exists ""|]. simpl.
  destruct (PyStr.rstrip_chars chars s) as [|d r] eqn:Hr.
  - destruct (PyStr.mem c chars) eqn:Hc.
    + exists (String c t). simpl in Hs. subst s. simpl. by rewrite Hc.
    + exists t. simpl in *. by subst s.
  - exists t. simpl in *. by rewrite <- Hs.
Qed.

Lemma rstrip_chars_end (chars s : string) :
  PyStr.rstrip_chars chars s = ""
  ∨ ∃ r c, PyStr.rstrip_chars chars s = r +:+ String c "" ∧ PyStr.mem c chars = false.
Proof.
  induction s as [|c s IH]; [by left|]. simpl.
  destruct (PyStr.rstrip_chars chars s) as [|d r] eqn:Hr.
  - destruct (PyStr.mem c chars) eqn:Hc; [by left|]. right. by exists "", c.
  - right. destruct IH as [?|(r' & c' & Heq & Hc')]; [done|].
    exists (String c r'), c'. simpl. by rewrite Heq.
Qed.

Lemma rstrip_chars_kept (chars r : string) (c : ascii) :
  PyStr.mem c chars = false →
  PyStr.rstrip_chars chars (r +:+ String c "") = r +:+ String c "".
Proof.
  intros Hc. induction r as [|d r IH]; simpl.
  - by rewrite Hc.
  - rewrite IH. by destruct r.
Qed.

(** [s.rstrip(chars)] removes an end of [s] made of characters of [chars]
    and nothing else: what is left is a start of [s] that is empty or ends
    in a character outside [chars]. A string that ends in such a character,
    as a match of pattern 2 ends in a letter, is returned whole, and
    stripping twice is stripping once. *)
Theorem rstrip_chars_spec (chars s : string) :
  (∃ t, s = PyStr.rstrip_chars chars s +:+ t
        ∧ chars_all (λ c, PyStr.mem c chars) t = true)
  ∧ (PyStr.rstrip_chars chars s = ""
     ∨ ∃ r c, PyStr.rstrip_chars chars s = r +:+ String c ""
              ∧ PyStr.mem c chars = false)
  ∧ (∀ r c, s = r +:+ String c "" → PyStr.mem c chars = false →
            PyStr.rstrip_chars chars s = s)
  ∧ PyStr.rstrip_chars chars (PyStr.rstrip_chars chars s) = PyStr.rstrip_chars chars s.
Proof.
  split; [apply rstrip_chars_split|]. split; [apply rstrip_chars_end|]. split.
  - intros r c -> Hc. by apply rstrip_chars_kept.
  - destruct (rstrip_chars_end chars s) as [->|(r & c & -> & Hc)]; [done|].
    by apply rstrip_chars_kept.
Qed.

Lemma rstrip_chars_spec_witness :
  PyStr.rstrip_chars "\,;)" "https://a.example/cat.JPG"
  = "https://a.example/cat.JPG".
Proof.
  apply (proj1 (proj2 (proj2 (rstrip_chars_spec "\,;)" "https://a.example/cat.JPG")))
           "https://a.example/cat.JP" "G"%char); reflexivity.
Defined.

(** [s[:n]] is a start of [s] of at most [n] characters, and all of [s]
    when [s] has no more than [n]; so a skipped URL is printed whole up to
    70 characters and cut after the 70th otherwise, never inside a
    character. *)
Theorem slice_to_spec (n : nat) (s : string) :
  (∃ t, s = PyStr.slice_to n s +:+ t
        ∧ (t = "" ∨ ∃ c t', t = String c t' ∧ PyStr.continuation c = false
                            ∧ char_count (PyStr.slice_to n s) = n))
  ∧ char_count (PyStr.slice_to n s) ≤ n
  ∧ (char_count s ≤ n → PyStr.slice_to n s = s).
Proof.
  revert n. induction s as [|c s IH]; intros n.
  - split; [exists ""; split; [done | by left]|]. simpl. split; [lia | done].
  - simpl. destruct (PyStr.continuation c) eqn:Hc.
    + destruct (IH n) as ((t & Hs & Ht) & Hle & Hall). simpl. rewrite Hc. simpl.
      split; [exists t; split; [by rewrite <- Hs | done]|].
      split; [done|]. intros H. by rewrite Hall.
    + destruct n as [|n].
      * split; [exists (String c s); split; [done|]; right; by exists c, s|].
        simpl. split; [lia|]. lia.
      * destruct (IH n) as ((t & Hs & Ht) & Hle & Hall). simpl. rewrite Hc.
        split.
        { exists t. split; [by rewrite <- Hs|].
          destruct Ht as [?|(c' & t' & ? & ? & ?)]; [by left|].
          right. exists c', t'. repeat split; try done. lia. }
        split; [lia|]. intros H. rewrite Hall; [done | lia].
Qed.

Lemma slice_to_spec_witness :
  PyStr.slice_to 70 "https://b.example/dog.png" = "https://b.example/dog.png".
Proof.
  apply (proj2 (proj2 (slice_to_spec 70 "https://b.example/dog.png"))).
  vm_compute. lia.
Defined.

(** ** More on the whole run *)

Lemma bind_run {E : Env} {A B : Type} (m : M E A) (k : A → M E B) (a : A)
    (w w1 : World (browser E)) :
  m w = (Ok a, w1) → bind m k w = k a w1.
Proof. intros H. unfold bind. by rewrite H. Qed.

(** A run up to the download pass: the cookies, the browser session, and
    what is left to do. *)
Lemma main_session {E : Env} (query : string) (w : World (browser E)) :
  ∃ cookies lines passes urls w1,
    load_firefox_cookies (log ["Scraping: " +:+ make_url query] w)
    = (Ok cookies, log lines (log ["Scraping: " +:+ make_url query] w))
    ∧ length passes = 15
    ∧ fs w1 = fs w
    ∧ trace w1 = trace w ++ session (make_url query) cookies passes
    ∧ main query w =
        match download urls w1 with
        | (Ok saved, w2) =>
            build_html (log ["Downloaded " +:+ PyStr.str saved +:+ " images to images/"] w2)
        | (Raise e, w2) => (Raise e, w2)
        end.
Proof.
  destruct (load_firefox_cookies_run (log ["Scraping: " +:+ make_url query] w))
    as (cookies & lines & Hload).
  exists cookies, lines. unfold main. cbv zeta.
  erewrite bind_run by reflexivity.
  rewrite (bind_run _ _ _ _ _ Hload).
  do 3 (erewrite bind_run by reflexivity).
  assert (∃ w4 : World (browser E),
    (match cookies with
     | [] => ret ()
     | _ :: _ => play (AddCookies cookies)
     end)
      (emit [EvBrowser (NewContext user_agent)]
         (turn (browser_step E (NewContext user_agent))
            (emit [EvBrowser (Launch false)]
               (turn (browser_step E (Launch false))
                  (log ["Loaded " +:+ PyStr.str (length cookies) +:+ " Firefox cookies"]
                     (log lines (log ["Scraping: " +:+ make_url query] w)))))))
    = (Ok (), w4)
    ∧ fs w4 = fs w
    ∧ trace w4 = trace w
                 ++ (EvBrowser <$> [Launch false; NewContext user_agent]
                       ++ match cookies with
                          | [] => []
                          | _ :: _ => [AddCookies cookies]
                          end)) as (w4 & Hstep & Hfs4 & Htr4).
  { destruct cookies; eexists; (split; [reflexivity|]); split; try done;
      simpl; by rewrite <- !app_assoc. }
  rewrite (bind_run _ _ _ _ _ Hstep).
  do 3 (erewrite bind_run by reflexivity).
  match goal with
  | |- context [bind collect_image_urls ?k ?w5] =>
      destruct (collector_passes SCROLL_TIMES ∅ w5)
        as (urls & w6 & passes & Hrun & Hlen & _ & Hfs6 & _ & Htr6);
      rewrite (bind_run collect_image_urls k urls w5 w6 Hrun)
  end.
  do 2 (erewrite bind_run by reflexivity).
  eexists passes, urls, _. split; [done|]. split; [done|].
  split; [|split; [|reflexivity]].
  - simpl. by rewrite Hfs6.
  - simpl. rewrite Htr6. simpl. rewrite Htr4. unfold session.
    rewrite !fmap_app, <- !app_assoc. done.
Qed.





(** What a pass leaves alone. *)
Lemma download_other_paths {E : Env} (urls : gset string) (w : World (browser E)) :
  ∃ n w',
    download urls w = (Ok n, w')
    ∧ (∀ p, (∀ k ext, k < n → p ≠ IMAGES_DIR ++ [image_name k ext]) →
            fs w' !! p = fs w !! p)
    ∧ (∀ p, is_Some (fs w !! p) → is_Some (fs w' !! p)).
Proof.
  destruct (download_run urls w)
    as (n & w' & rs & evs & Hrun & Hlen & _ & _ & _ & Hfiles & Hframe).
  exists n, w'. split; [done|]. split.
  - intros p Hp. destruct (Hframe p) as [?|[data Hnew]]; [done|].
    apply numbered_below in Hnew as (k & r & Hk & ->).
    exfalso. eapply (Hp k); [lia | done].
  - intros p Hp. destruct (Hframe p) as [->|[data Hnew]]; [done|].
    rewrite (Hfiles p data Hnew). eauto.
Qed.



(** ** More on the gallery *)

Lemma string_compare_refl (a : string) : String.compare a a = Eq.
Proof.
  induction a as [|c a IH]; simpl; [done|].
  unfold Ascii.compare. by rewrite N.compare_refl.
Qed.

Lemma string_compare_lt_trans (a b c : string) :
  String.compare a b = Lt → String.compare b c = Lt → String.compare a c = Lt.
Proof.
  intros Hab Hbc.
  assert (String.le a b) as Lab by (unfold String.le, String.leb; by rewrite Hab).
  assert (String.le b c) as Lbc by (unfold String.le, String.leb; by rewrite Hbc).
  assert (String.le a c) as Lac by (by etrans).
  unfold String.le, String.leb in Lac.
  destruct (String.compare a c) eqn:Hac; [|done|done].
  apply String.compare_eq_iff in Hac as ->.
  assert (c = b) as -> by (by apply (anti_symm String.le)).
  by rewrite string_compare_refl in Hab.
Qed.

Lemma parts_compare_eq (p q : path) : parts_compare p q = Eq → p = q.
Proof.
  revert q. induction p as [|a p IH]; intros [|b q]; simpl; try done.
  destruct (String.compare a b) eqn:Hab; try done.
  apply String.compare_eq_iff in Hab as ->. intros H. f_equal. by apply IH.
Qed.

Lemma parts_compare_lt_trans (p q r : path) :
  parts_compare p q = Lt → parts_compare q r = Lt → parts_compare p r = Lt.
Proof.
  revert q r. induction p as [|a p IH]; intros [|b q] [|c r]; simpl; try done.
  destruct (String.compare a b) eqn:Hab; try done;
    destruct (String.compare b c) eqn:Hbc; try done.
  - apply String.compare_eq_iff in Hab as ->. rewrite Hbc. apply IH.
  - apply String.compare_eq_iff in Hab as ->. by rewrite Hbc.
  - apply String.compare_eq_iff in Hbc as <-. by rewrite Hab.
  - by rewrite (string_compare_lt_trans a b c).
Qed.

Lemma path_le_trans : Transitive path_le.
Proof.
  intros p q r. unfold path_le.
  destruct (parts_compare p q) eqn:Hpq; [|
    |done].
  - apply parts_compare_eq in Hpq as ->. done.
  - destruct (parts_compare q r) eqn:Hqr; [| |done].
    + apply parts_compare_eq in Hqr as <-. by rewrite Hpq.
    + by rewrite (parts_compare_lt_trans p q r).
Qed.

Lemma path_le_antisym : AntiSymm (=) path_le.
Proof.
  intros p q. unfold path_le. rewrite (parts_compare_antisym p q).
  destruct (parts_compare p q) eqn:Hpq; simpl; try done.
  intros _ _. by apply parts_compare_eq.
Qed.

(** Sorting by [path_le] gives one result for all orders of the input. *)
Lemma sort_paths_unique (l l' : list path) :
  l ≡ₚ l' → merge_sort path_le l = merge_sort path_le l'.
Proof.
  intros H.
  apply (Sorted_unique path_le (Transitive0:=path_le_trans) (AntiSymm0:=path_le_antisym)).
  - apply Sorted_merge_sort, path_le_total.
  - apply Sorted_merge_sort, path_le_total.
  - by rewrite !merge_sort_Permutation.
Qed.

(** The gallery depends on nothing but the set of paths below the images
    directory: two trees with the same entries there, whatever the files
    hold, whatever lies elsewhere and in whatever order the directory is
    read, give the same list. *)
Theorem gallery_depends_on_paths_only (files files' : gmap path entry) :
  (∀ p, below IMAGES_DIR p = true → (is_Some (files !! p) ↔ is_Some (files' !! p))) →
  list_images files = list_images files'.
Proof.
  intros Hsame. unfold list_images. apply sort_paths_unique.
  apply NoDup_Permutation.
  - apply NoDup_filter. unfold rglob. apply NoDup_filter, NoDup_fst_map_to_list.
  - apply NoDup_filter. unfold rglob. apply NoDup_filter, NoDup_fst_map_to_list.
  - intros p. rewrite !list_elem_of_filter, !elem_of_rglob.
    split; intros (Himg & Hbelow & Hsome); (split; [done|]; split; [done|]);
      by apply (Hsame p Hbelow).
Qed.

Lemma gallery_depends_on_paths_only_witness :
  list_images (fs stale_world)
  = list_images (<[index_html := EFile (body 3)]>
                   (<[IMAGES_DIR ++ ["old.png"] := EFile (body 7)]> (fs stale_world))).
Proof.
  apply (gallery_depends_on_paths_only (fs stale_world)).
  intros p Hbelow.
  rewrite lookup_insert_ne by (intros <-; discriminate Hbelow).
  destruct (decide (IMAGES_DIR ++ ["old.png"] = p)) as [<-|Hne].
  - rewrite lookup_insert_eq. split; [eauto|]. intros _. vm_compute. eauto.
  - by rewrite lookup_insert_ne.
Defined.

Lemma gallery_images_same (files : gmap path entry) (e : entry) :
  list_images (<[index_html := e]> files) = list_images files.
Proof.
  unfold list_images. apply sort_paths_unique. apply NoDup_Permutation.
  - apply NoDup_filter. unfold rglob. apply NoDup_filter, NoDup_fst_map_to_list.
  - apply NoDup_filter. unfold rglob. apply NoDup_filter, NoDup_fst_map_to_list.
  - intros p. rewrite !list_elem_of_filter, !elem_of_rglob.
    split; intros (Himg & Hbelow & Hsome); (split; [done|]; split; [done|]).
    + rewrite lookup_insert_ne in Hsome; [done|]. intros <-. discriminate Hbelow.
    + rewrite lookup_insert_ne; [done|]. intros <-. discriminate Hbelow.
Qed.

(** [build_html] writes to index.html and nowhere else, and writing the
    gallery twice is writing it once: the second call finds the same
    entries, succeeds whenever the first did, and leaves the files exactly
    as the first left them. *)
Theorem build_html_twice (E : Env) (w : World (browser E)) :
  (∀ p, p ≠ index_html → fs (build_html w).2 !! p = fs w !! p)
  ∧ page (build_html w).2 = page w
  ∧ ((build_html w).1 = Ok () →
     (build_html (build_html w).2).1 = Ok ()
     ∧ fs (build_html (build_html w).2).2 = fs (build_html w).2).
Proof.
  rewrite build_html_run.
  destruct (list_images (fs w)) as [|p0 images] eqn:Himages.
  - cbn [fst snd fs page log]. split; [done|]. split; [done|]. intros _.
    rewrite build_html_run. cbn [fs log]. by rewrite Himages.
  - destruct (write_error (fs w) index_html) as [e|] eqn:Hwr.
    + by cbn [fst snd].
    + cbn [fst snd fs page log emit store].
      split; [intros p Hp; by apply lookup_insert_ne|]. split; [done|]. intros _.
      rewrite build_html_run. cbn [fs log emit store].
      assert (list_images
                (<[index_html:=EFile (list_byte_of_string (gallery_html (p0 :: images)))]>
                   (fs w)) = p0 :: images) as ->.
      { rewrite <- Himages. apply gallery_images_same. }
      assert (write_error (E:=E)
                (<[index_html:=EFile (list_byte_of_string (gallery_html (p0 :: images)))]>
                   (fs w)) index_html = None) as ->.
      { unfold write_error in *. rewrite lookup_insert_eq.
        rewrite bool_decide_eq_true_2 by (by left).
        destruct (fs w !! index_html) as [[|]|]; try done;
          by rewrite bool_decide_eq_true_2 in Hwr by (by left). }
      cbn [fst snd fs log emit store]. split; [done|]. apply insert_insert_eq.
Qed.

(** Every file a pass saved is an entry the gallery lists, whatever else
    the images directory holds; so the gallery has at least as many
    entries as the pass returned. *)
Theorem saved_files_are_listed (E : Env) (urls : gset string)
    (w : World (browser E)) :
  ∃ n w' evs,
    download urls w = (Ok n, w')
    ∧ trace w' = trace w ++ evs
    ∧ length (writes evs) = n
    ∧ (∀ p data, (p, data) ∈ writes evs →
         fs w' !! p = Some (EFile data) ∧ p ∈ list_images (fs w'))
    ∧ n ≤ length (list_images (fs w')).
Proof.
  destruct (download_run urls w)
    as (n & w' & rs & evs & Hrun & Hlen & Htr & Hwr & _ & Hfiles & _).
  exists n, w', evs. split; [done|]. split; [done|].
  assert (length (numbered 0 rs) = n) as Hnum
    by (unfold numbered; by rewrite length_imap).
  split; [by rewrite Hwr|].
  assert (∀ p data, (p, data) ∈ numbered 0 rs → p ∈ list_images (fs w')) as Hin.
  { intros p data Hp. apply elem_of_list_images.
    pose proof (Hfiles p data Hp) as Hfile.
    apply numbered_below in Hp as (k & r & _ & ->).
    split; [apply is_image_saved|]. split; [done | eauto]. }
  split.
  - intros p data Hp. rewrite Hwr in Hp. eauto.
  - rewrite <- Hnum, <- (length_fmap fst).
    apply submseteq_length, NoDup_submseteq; [apply numbered_NoDup|].
    intros p [[p' data] [-> Hp]]%list_elem_of_fmap. by eapply Hin.
Qed.

(** ** The script *)

Lemma main_keeps_images_directory {E : Env} (query : string)
    (w : World (browser E)) :
  fs w !! IMAGES_DIR = Some EDir → fs (main query w).2 !! IMAGES_DIR = Some EDir.
Proof.
  intros Hdir.
  destruct (main_session query w)
    as (cookies & lines & passes & urls & w1 & _ & _ & Hfs1 & _ & Hmain).
  destruct (download_other_paths urls w1) as (n & w2 & Hrun & Hother & _).
  assert (fs w2 !! IMAGES_DIR = Some EDir) as Hdir2.
  { rewrite <- Hdir, <- Hfs1. apply Hother. intros; discriminate. }
  rewrite Hmain, Hrun, build_html_run. cbn [fs log].
  destruct (list_images (fs w2)); [done|].
  destruct (write_error (fs w2) index_html); [done|].
  cbn [snd fs log emit store]. by rewrite lookup_insert_ne.
Qed.

(** The script needs [images] to be a directory. If a regular file has that
    name, it stops with [FileExistsError] before it prints or launches
    anything; otherwise, when it ends, with or without an exception, either
    [images] is a directory or it stopped at start-up with nothing changed.
    The query is the first argument, or the default query when there is
    none. *)
Theorem script_needs_images_directory (E : Env) (argv : list string)
    (w : World (browser E)) :
  (∀ data, fs w !! IMAGES_DIR = Some (EFile data) →
           script argv w = (Raise "FileExistsError", w))
  ∧ (fs w !! IMAGES_DIR = Some EDir →
     script argv w = main (default default_query (argv !! 1)) w)
  ∧ (fs (script argv w).2 !! IMAGES_DIR = Some EDir
     ∨ ∃ e, script argv w = (Raise e, w)).
Proof.
  assert (∀ w0 : World (browser E),
            (let query := match argv with
                          | _ :: q :: _ => q
                          | _ => default_query
                          end in main query) w0
            = main (default default_query (argv !! 1)) w0) as Hquery.
  { intros w0. by destruct argv as [|? [|? ?]]. }
  unfold script, bind, mkdir_images. split; [|split].
  - intros data Hfile. by rewrite Hfile.
  - intros Hdir. rewrite Hdir. apply Hquery.
  - destruct (fs w !! IMAGES_DIR) as [[data|]|] eqn:Hdir.
    + right. by exists "FileExistsError".
    + left. rewrite Hquery. by apply main_keeps_images_directory.
    + destruct (disk_fault E IMAGES_DIR) as [e|]; [right; by exists e|].
      left. rewrite Hquery. apply main_keeps_images_directory.
      apply lookup_insert_eq.
Qed.

Lemma script_needs_images_directory_witness :
  script (E:=sample_env []) ["scrape.py"; "cats"] blocked_world
  = (Raise "FileExistsError", blocked_world).
Proof.
  apply (proj1 (script_needs_images_directory (sample_env []) ["scrape.py"; "cats"]
                  blocked_world) (body 1)).
  reflexivity.
Defined.

(** ** More on the collector *)

(** The counts the collector prints never go down, and the last one is the
    size of the set it returns. *)
Theorem collector_counts_grow (E : Env) (w : World (browser E)) :
  ∃ urls w' (counts : list nat),
    collect_image_urls w = (Ok urls, w')
    ∧ stdout w' = stdout w ++ zip_with scroll_line (seq 0 15) counts
    ∧ length counts = 15
    ∧ Sorted le counts
    ∧ List.last counts 0 = size urls.
Proof.
  pose (P := λ (seen : list nat) (urls' : gset string) (w' : World (browser E)),
    ∃ counts : list nat,
      length counts = length seen
      ∧ stdout w' = stdout w ++ zip_with scroll_line seen counts
      ∧ Sorted le counts
      ∧ Forall (λ n, n ≤ size urls') counts
      ∧ (seen ≠ [] → List.last counts 0 = size urls')).
  destruct (for_each_invariant scroll (λ _, True) P) with
    (items := seq 0 SCROLL_TIMES) (seen := @nil nat) (s := (∅ : gset string)) (w := w)
    as (urls & w' & Hrun & counts & Hlen & Hout & Hsorted & _ & Hlast).
  - intros seen i s w1 _ (counts & Hlen & Hout & Hsorted & Hle & _).
    destruct (scroll_run i s w1) as (s' & w2 & clicked & Hrun & Hs & _ & Hout2 & _).
    exists s', w2. split; [done|]. exists (counts ++ [size s']).
    pose proof (subseteq_size _ _ Hs) as Hsize.
    split; [rewrite !length_app; simpl; lia|]. split.
    { rewrite Hout2, Hout, <- app_assoc. f_equal. by rewrite zip_with_app. }
    split.
    { apply Sorted_snoc; [done|]. clear Hlen Hout Hsorted.
      induction counts as [|c counts _] using rev_ind.
      - constructor.
      - constructor.
        apply Forall_app in Hle as [_ Hc].
        apply (proj1 (Forall_singleton _ _)) in Hc. simpl in Hc. lia. }
    split.
    { apply Forall_app. split; [|by apply Forall_singleton].
      eapply Forall_impl; [done|]. simpl. intros; lia. }
    intros _. by rewrite last_last.
  - by apply Forall_forall.
  - exists []. simpl. rewrite app_nil_r. repeat split; try done; constructor.
  - exists urls, w', counts.
    change ([] ++ seq 0 SCROLL_TIMES) with (seq 0 15) in Hlen, Hout, Hlast.
    rewrite length_seq in Hlen.
    split; [done|]. split; [done|]. split; [done|]. split; [done|].
    by apply Hlast.
Qed.
